(** * clash_cli.py: a shallow embedding and its checked properties

    The program is a command-line client of the control API of a Clash
    proxy daemon (src/tools/clash_cli.py).  It is embedded here as
    functions over the values [json.load] produces, an explicit world
    (daemon state, requests sent, config files, the two output streams)
    and a small state-and-exception monad.

    Conventions.
    - Strings are byte strings holding UTF-8, as Python encodes them on
      the wire and on disk.
    - JSON numbers are integers (spec section 6: the delay is an int);
      floats are outside the model.
    - A Python [dict] is the list of its items in insertion order. *)

From Stdlib Require Import ZArith String Ascii List Bool Lia Permutation.
From Stdlib Require Import DecimalString.
Import ListNotations.
Local Open Scope list_scope.
Local Open Scope string_scope.

(** ** Values *)

Module Py.

(** What [json.load]/[json.loads] returns; [JNull] is Python's [None]. *)
#[local] Unset Elimination Schemes.
Inductive json : Type :=
| JNull
| JBool (b : bool)
| JNum (n : Z)
| JStr (s : string)
| JArr (items : list json)
| JObj (fields : list (string * json)).

#[local] Set Elimination Schemes.

(** Exception classes the program meets; all derive from [Exception]. *)
Inductive exn_class : Type :=
| URLError | HTTPError | SocketTimeout | JSONDecodeError | UnicodeDecodeError
| OSError | TypeError | AttributeError | ValueError | RuntimeError.

(** An exception: its class and the text [str(exc)] gives. *)
Record exn : Type := Exn { exn_cls : exn_class; exn_msg : string }.

(** Result of evaluating an expression that may raise. *)
Inductive res (A : Type) : Type :=
| Val (a : A)
| Err (e : exn).
Arguments Val {A} a.
Arguments Err {A} e.

Definition type_name (v : json) : string :=
  match v with
  | JNull => "NoneType"
  | JBool _ => "bool"
  | JNum _ => "int"
  | JStr _ => "str"
  | JArr _ => "list"
  | JObj _ => "dict"
  end.

(** [str(n)] for an int. *)
Definition str_int (n : Z) : string :=
  NilZero.string_of_int (Z.to_int n).

(** What [urlopen] raises on a response whose status is not 2xx. *)
Definition http_error (code : Z) (reason : string) : exn :=
  Exn HTTPError ("HTTP Error " ++ str_int code ++ ": " ++ reason).

(** The daemon's answer for a name it does not know is a 404. *)
Definition not_found : exn := http_error 404 "Not Found".

(** *** Strings *)

Fixpoint join (sep : string) (parts : list string) : string :=
  match parts with
  | [] => ""
  | [p] => p
  | p :: rest => p ++ sep ++ join sep rest
  end.

Fixpoint contains_char (c : ascii) (s : string) : bool :=
  match s with
  | EmptyString => false
  | String d rest => Ascii.eqb c d || contains_char c rest
  end.

Definition startswith (p s : string) : bool := String.prefix p s.

(** [s.lstrip("/")] *)
Fixpoint lstrip_slash (s : string) : string :=
  match s with
  | String "/" rest => lstrip_slash rest
  | _ => s
  end.

(** [s.rstrip("/")] *)
Fixpoint rstrip_slash (s : string) : string :=
  match s with
  | EmptyString => EmptyString
  | String c rest =>
      match rstrip_slash rest with
      | EmptyString => if Ascii.eqb c "/" then EmptyString else String c EmptyString
      | r => String c r
      end
  end.

(** [s.split("/")] *)
Fixpoint split_slash (s : string) : list string :=
  match s with
  | EmptyString => [""]
  | String c rest =>
      if Ascii.eqb c "/" then "" :: split_slash rest
      else
        match split_slash rest with
        | seg :: more => String c seg :: more
        | [] => [String c ""]
        end
  end.

(** [segments[1:-1] = filter(None, segments[1:-1])] of [urljoin], on the
    segments of the reference (the first segment of the whole list
    belongs to the base): empty segments other than the last go. *)
Fixpoint drop_empty_middle (segs : list string) : list string :=
  match segs with
  | [] => []
  | [final] => [final]
  | seg :: rest =>
      if String.eqb seg "" then drop_empty_middle rest
      else seg :: drop_empty_middle rest
  end.

(** The loop of [urljoin] over the segments: [..] removes the segment
    before it, [.] is skipped, any other segment is kept. *)
Fixpoint resolve_dots (resolved segs : list string) : list string :=
  match segs with
  | [] => resolved
  | seg :: rest =>
      if String.eqb seg ".." then resolve_dots (removelast resolved) rest
      else if String.eqb seg "." then resolve_dots resolved rest
      else resolve_dots (resolved ++ [seg])%list rest
  end.

(** The part of the path of [urljoin(base + "/", reference)] that lies
    below the directory of the base: the segments of the reference with
    the empty ones dropped and the dot segments resolved, and a trailing
    slash when the reference ends in a dot segment.  This is what
    [urljoin] does for a reference that has no scheme, query, fragment
    or parameters and whose first segment is not a dot segment; every
    reference of this program is such a one ([proxies/...] with
    percent-encoded names). *)
Definition joined_path (reference : string) : string :=
  let segs := drop_empty_middle (split_slash reference) in
  let resolved := resolve_dots [] segs in
  let final := last segs "" in
  join "/" (if String.eqb final "." || String.eqb final ".."
            then (resolved ++ [""])%list else resolved).

Definition hex_digit (upper : bool) (n : N) : ascii :=
  if (n <? 10)%N then ascii_of_N (48 + n)
  else ascii_of_N ((if upper then 55 else 87) + n).

Definition hex_byte (upper : bool) (c : ascii) : string :=
  let n := N_of_ascii c in
  String (hex_digit upper (n / 16)) (String (hex_digit upper (n mod 16)) "").

(** A UTF-8 continuation byte, 10xxxxxx. *)
Definition is_continuation (c : ascii) : bool :=
  let n := N_of_ascii c in (128 <=? n)%N && (n <? 192)%N.

(** The characters (code points) of a string, each as its own string:
    what iterating a Python [str] yields. *)
Fixpoint chars (s : string) : list string :=
  match s with
  | EmptyString => []
  | String c rest =>
      match chars rest with
      | r :: more =>
          match r with
          | String d _ =>
              if is_continuation d then String c r :: more
              else String c "" :: r :: more
          | EmptyString => String c "" :: more
          end
      | [] => [String c ""]
      end
  end.

(** *** [repr] and [str] *)

Definition dquote : ascii := "034"%char.

Definition repr_char (quote : ascii) (c : ascii) : string :=
  let n := N_of_ascii c in
  if Ascii.eqb c "\" then "\\"
  else if Ascii.eqb c quote then String "\" (String quote "")
  else if (n =? 9)%N then "\t"
  else if (n =? 10)%N then "\n"
  else if (n =? 13)%N then "\r"
  else if ((n <? 32) || (n =? 127))%N then "\x" ++ hex_byte false c
  else String c "".

Fixpoint repr_chars (quote : ascii) (s : string) : string :=
  match s with
  | EmptyString => ""
  | String c rest => repr_char quote c ++ repr_chars quote rest
  end.

(** [repr(s)] for a [str]: single quotes unless the text has a single
    quote and no double quote.  Bytes above 0x7f are kept, which is what
    Python does for printable non-ASCII characters. *)
Definition repr_str (s : string) : string :=
  let q : ascii :=
    if contains_char "'" s && negb (contains_char dquote s) then dquote else "'"%char in
  String q (repr_chars q s) ++ String q "".

Fixpoint repr (v : json) : string :=
  match v with
  | JNull => "None"
  | JBool true => "True"
  | JBool false => "False"
  | JNum n => str_int n
  | JStr s => repr_str s
  | JArr items =>
      "[" ++ join ", " ((fix go (l : list json) : list string :=
                           match l with
                           | [] => []
                           | x :: r => repr x :: go r
                           end) items) ++ "]"
  | JObj fields =>
      "{" ++ join ", " ((fix go (l : list (string * json)) : list string :=
                           match l with
                           | [] => []
                           | (k, x) :: r => (repr_str k ++ ": " ++ repr x) :: go r
                           end) fields) ++ "}"
  end.

(** [str(v)], which an f-string applies to each value it formats. *)
Definition str (v : json) : string :=
  match v with
  | JStr s => s
  | _ => repr v
  end.

(** Truth value of [v] in [if v:] and [v or ...]. *)
Definition truthy (v : json) : bool :=
  match v with
  | JNull => false
  | JBool b => b
  | JNum n => negb (n =? 0)%Z
  | JStr s => negb (String.eqb s "")
  | JArr l => match l with [] => false | _ => true end
  | JObj l => match l with [] => false | _ => true end
  end.

Definition and_then {A B} (r : res A) (k : A -> res B) : res B :=
  match r with
  | Val a => k a
  | Err e => Err e
  end.

(** *** Dictionaries *)

Definition dict : Type := list (string * json).

(** [k in d], [d[k]]: the item stored under [k]. *)
Fixpoint dict_get (k : string) (d : dict) : option json :=
  match d with
  | [] => None
  | (k', v) :: rest => if String.eqb k k' then Some v else dict_get k rest
  end.

(** [d[k] = v]: an existing key keeps its place, a new one goes last. *)
Fixpoint dict_set (k : string) (v : json) (d : dict) : dict :=
  match d with
  | [] => [(k, v)]
  | (k', v') :: rest =>
      if String.eqb k k' then (k', v) :: rest else (k', v') :: dict_set k v rest
  end.

Definition no_attribute (v : json) (attr : string) : exn :=
  Exn AttributeError
      ("'" ++ type_name v ++ "' object has no attribute '" ++ attr ++ "'").

(** [obj.get(k, default)] *)
Definition get (obj : json) (k : string) (default : json) : res json :=
  match obj with
  | JObj d => Val (match dict_get k d with Some v => v | None => default end)
  | _ => Err (no_attribute obj "get")
  end.

(** [obj.items()] *)
Definition items (obj : json) : res dict :=
  match obj with
  | JObj d => Val d
  | _ => Err (no_attribute obj "items")
  end.

(** *** Iteration, hashing, comparison *)

(** What a [for] loop, [list(v)], [set(v)] or [join] walks through. *)
Definition iterate (v : json) : option (list json) :=
  match v with
  | JArr l => Some l
  | JStr s => Some (map JStr (chars s))
  | JObj d => Some (map (fun kv => JStr (fst kv)) d)
  | _ => None
  end.

Definition not_iterable (v : json) : exn :=
  Exn TypeError ("'" ++ type_name v ++ "' object is not iterable").

(** [list(v)] *)
Definition to_list (v : json) : res (list json) :=
  match iterate v with
  | Some l => Val l
  | None => Err (not_iterable v)
  end.

Definition hashable (v : json) : bool :=
  match v with
  | JArr _ | JObj _ => false
  | _ => true
  end.

Definition unhashable (v : json) : exn :=
  Exn TypeError ("unhashable type: '" ++ type_name v ++ "'").

(** [a == b] on hashable values: [True == 1] and [False == 0]. *)
Definition key_eqb (a b : json) : bool :=
  match a, b with
  | JNull, JNull => true
  | JStr x, JStr y => String.eqb x y
  | JNum x, JNum y => (x =? y)%Z
  | JBool x, JBool y => Bool.eqb x y
  | JBool x, JNum y | JNum y, JBool x => (y =? (if x then 1 else 0))%Z
  | _, _ => false
  end.

(** [x in s] for a set or a list of hashable values. *)
Definition member (x : json) (s : list json) : bool := existsb (key_eqb x) s.

(** The distinct elements of a sequence, first occurrences kept. *)
Fixpoint distinct (seen l : list json) : list json :=
  match l with
  | [] => []
  | x :: rest =>
      if member x seen then distinct seen rest
      else x :: distinct (seen ++ [x])%list rest
  end.

(** [", ".join(...)] over a list of values: every item must be a [str]. *)
Fixpoint join_strs (i : nat) (l : list json) : res (list string) :=
  match l with
  | [] => Val []
  | JStr s :: rest =>
      match join_strs (S i) rest with
      | Val ss => Val (s :: ss)
      | Err e => Err e
      end
  | x :: _ =>
      Err (Exn TypeError ("sequence item " ++ str_int (Z.of_nat i)
                          ++ ": expected str instance, " ++ type_name x ++ " found"))
  end.

Definition join_list (sep : string) (l : list json) : res string :=
  match join_strs 0 l with
  | Val ss => Val (join sep ss)
  | Err e => Err e
  end.

(** [sep.join(v)] *)
Definition join_value (sep : string) (v : json) : res string :=
  match iterate v with
  | Some l => join_list sep l
  | None => Err (Exn TypeError "can only join an iterable")
  end.

(** [delay < 0] *)
Definition lt_zero (v : json) : res bool :=
  match v with
  | JNum n => Val (n <? 0)%Z
  | JBool _ => Val false
  | _ => Err (Exn TypeError
                ("'<' not supported between instances of '" ++ type_name v
                 ++ "' and 'int'"))
  end.

(** *** [urllib.parse.quote(name, safe="")] *)

Definition unreserved (c : ascii) : bool :=
  let n := N_of_ascii c in
  ((65 <=? n) && (n <=? 90) || (97 <=? n) && (n <=? 122)
   || (48 <=? n) && (n <=? 57)
   || (n =? 95) || (n =? 46) || (n =? 45) || (n =? 126))%N.

Fixpoint quote_str (s : string) : string :=
  match s with
  | EmptyString => ""
  | String c rest =>
      (if unreserved c then String c "" else "%" ++ hex_byte true c)
      ++ quote_str rest
  end.

Definition quote (name : json) : res string :=
  match name with
  | JStr s => Val (quote_str s)
  | _ => Err (Exn TypeError "quote_from_bytes() expected bytes")
  end.

(** *** [json.dumps(v, ensure_ascii=False, indent=2)] *)

Definition newline : string := String "010" "".

Fixpoint spaces (n : nat) : string :=
  match n with
  | O => ""
  | S m => " " ++ spaces m
  end.

Definition newline_indent (level : nat) : string := newline ++ spaces (2 * level).

Definition dumps_char (c : ascii) : string :=
  let n := N_of_ascii c in
  if Ascii.eqb c "\" then "\\"
  else if Ascii.eqb c dquote then String "\" (String dquote "")
  else if (n =? 8)%N then "\b"
  else if (n =? 9)%N then "\t"
  else if (n =? 10)%N then "\n"
  else if (n =? 12)%N then "\f"
  else if (n =? 13)%N then "\r"
  else if (n <? 32)%N then "\u00" ++ hex_byte false c
  else String c "".

Fixpoint dumps_chars (s : string) : string :=
  match s with
  | EmptyString => ""
  | String c rest => dumps_char c ++ dumps_chars rest
  end.

Definition dumps_str (s : string) : string :=
  String dquote (dumps_chars s) ++ String dquote "".

Fixpoint dumps_at (level : nat) (v : json) : string :=
  match v with
  | JNull => "null"
  | JBool true => "true"
  | JBool false => "false"
  | JNum n => str_int n
  | JStr s => dumps_str s
  | JArr [] => "[]"
  | JArr l =>
      "[" ++ newline_indent (S level)
      ++ join ("," ++ newline_indent (S level))
           ((fix go (l : list json) : list string :=
               match l with
               | [] => []
               | x :: r => dumps_at (S level) x :: go r
               end) l)
      ++ newline_indent level ++ "]"
  | JObj [] => "{}"
  | JObj d =>
      "{" ++ newline_indent (S level)
      ++ join ("," ++ newline_indent (S level))
           ((fix go (l : dict) : list string :=
               match l with
               | [] => []
               | (k, x) :: r => (dumps_str k ++ ": " ++ dumps_at (S level) x) :: go r
               end) d)
      ++ newline_indent level ++ "}"
  end.

Definition dumps (v : json) : string := dumps_at 0 v.

End Py.

Import Py.

Declare Scope res_scope.
Delimit Scope res_scope with res.
Notation "x <- r ;; k" := (and_then r (fun x => k))
  (at level 100, r at next level, right associativity) : res_scope.

(** ** The world the program runs in *)

Inductive http_method : Type := GET | PUT.

(** One HTTP request as [ClashClient._request] builds it.  The URL is
    [urljoin(base + "/", path.lstrip("/"))] followed by the url-encoded
    query.  [rq_base] is the base as the client holds it, [rq_path] the
    path of the joined URL below the directory of the base ([joined_path])
    and [rq_query] the items of the query before encoding. *)
Record request : Type := Request {
  rq_method : http_method;
  rq_base : string;
  rq_path : string;
  rq_query : list (string * string);
  rq_headers : list (string * string);
  rq_data : option json;
  rq_timeout : Z
}.

(** What comes back: [urlopen], [decode] or [json.loads] raised, or the
    body was empty, or it parsed to a JSON value. *)
Inductive response : Type :=
| Failure (e : exn)
| EmptyBody
| JsonBody (j : json).

(** A config file: missing, present but [open]/[json.load] raises, or a
    JSON object (the [Dict[str, str]] of the annotations, with any JSON
    value allowed under a key). *)
Inductive file_state : Type :=
| Absent
| Unreadable (e : exn)
| Doc (d : dict).

(** How a write to a config file fails: [mkdir] or [open] raises and
    the file is as it was, or the exception comes after [open(path, "w")]
    has truncated the file, while [json.dump] writes; what is left is
    then no JSON document, and reading it raises [remains]. *)
Inductive write_failure : Type :=
| BeforeOpen (exc : exn)
| DuringDump (exc : exn) (remains : exn).

(** Everything outside the program text that its behaviour depends on:
    the daemon, the process environment, path expansion, the order in
    which this interpreter iterates a set, and argparse's help text. *)
Class platform : Type := {
  server : Type;
  serve : server -> request -> response * server;
  environ : string -> option string;
  expanduser : string -> string;
  set_order : list json -> list json;
  set_order_perm : forall l, Permutation (set_order l) l;
  usage : string
}.

Section Runtime.

Context {P : platform}.

(** The state a run reads and changes: the daemon, the requests sent so
    far, the config files by expanded path, the way a write to a path
    would fail (if it would), and the lines printed on each stream. *)
Record world : Type := World {
  daemon : server;
  sent : list request;
  files : string -> file_state;
  write_error : string -> option write_failure;
  stdout : list string;
  stderr : list string
}.

(** How a computation ends: normally, with an exception, or with
    [sys.exit(code)] ([SystemExit] is not an [Exception]). *)
Inductive outcome (A : Type) : Type :=
| Ok (a : A)
| Raise (e : exn)
| Exit (code : Z).
#[global] Arguments Ok {A} a.
#[global] Arguments Raise {A} e.
#[global] Arguments Exit {A} code.

Definition M (A : Type) : Type := world -> outcome A * world.

Definition ret {A} (a : A) : M A := fun w => (Ok a, w).

Definition bind {A B} (m : M A) (k : A -> M B) : M B :=
  fun w =>
    match m w with
    | (Ok a, w') => k a w'
    | (Raise e, w') => (Raise e, w')
    | (Exit c, w') => (Exit c, w')
    end.

Definition raise {A} (e : exn) : M A := fun w => (Raise e, w).

Definition sys_exit {A} (code : Z) : M A := fun w => (Exit code, w).

Definition lift {A} (r : res A) : M A :=
  match r with
  | Val a => ret a
  | Err e => raise e
  end.

(** [try: body  except Exception as exc: handler] *)
Definition try_except {A} (body : M A) (handler : exn -> M A) : M A :=
  fun w =>
    match body w with
    | (Raise e, w') => handler e w'
    | r => r
    end.

(** [print(line)] *)
Definition print (line : string) : M unit :=
  fun w => (Ok tt, World (daemon w) (sent w) (files w) (write_error w)
                         (stdout w ++ [line])%list (stderr w)).

(** [print(line, file=sys.stderr)] *)
Definition eprint (line : string) : M unit :=
  fun w => (Ok tt, World (daemon w) (sent w) (files w) (write_error w)
                         (stdout w) (stderr w ++ [line])%list).

(** [urlopen(req)] and reading the body: the request goes to the daemon. *)
Definition urlopen (rq : request) : M response :=
  fun w =>
    let (r, d) := serve (daemon w) rq in
    (Ok r, World d (sent w ++ [rq])%list (files w) (write_error w)
                 (stdout w) (stderr w)).

End Runtime.

Declare Scope py_scope.
Delimit Scope py_scope with py.
Notation "x <- m ;; k" := (bind m (fun x => k))
  (at level 100, m at next level, right associativity) : py_scope.
Notation "m ;; k" := (bind m (fun _ => k))
  (at level 100, right associativity) : py_scope.
Local Open Scope py_scope.

(** [for x in l: body(x)] *)
Fixpoint for_each {P : platform} {A} (l : list A) (body : A -> M unit) : M unit :=
  match l with
  | [] => ret tt
  | x :: rest => body x ;; for_each rest body
  end.

(** ** The client *)

Module ClashClient.

Record t : Type := Make { base : string; secret : json; timeout : Z }.

(** [__init__(host, secret)], with the default [timeout=10]. *)
Definition init (host secret : json) : res t :=
  match host with
  | JStr h =>
      if startswith "http://" h || startswith "https://" h
      then Val (Make (rstrip_slash h) secret 10)
      else Val (Make (rstrip_slash ("http://" ++ h)) secret 10)
  | _ => Err (no_attribute host "startswith")
  end.

Definition headers (self : t) : list (string * string) :=
  ("Content-Type", "application/json")
    :: (if truthy (secret self)
        then [("Authorization", "Bearer " ++ str (secret self))]
        else []).

(** The request [_request] sends.  [query] is the list of its items;
    [None] and [{}] are both []. *)
Definition build (self : t) (method : http_method) (path : string)
    (data : option json) (query : list (string * string)) : request :=
  Request method (base self) (joined_path (lstrip_slash path)) query
          (headers self) data (timeout self).

Section Methods.

Context {P : platform}.

Definition _request (self : t) (method : http_method) (path : string)
    (data : option json) (query : list (string * string)) : M json :=
  resp <- urlopen (build self method path data query) ;;
  match resp with
  | Failure e => raise e
  | EmptyBody => ret (JObj [])
  | JsonBody j => ret j
  end.

Definition proxies (self : t) : M json :=
  r <- _request self GET "/proxies" None [] ;;
  lift (get r "proxies" (JObj [])).

Definition proxy (self : t) (name : string) : M json :=
  _request self GET ("/proxies/" ++ quote_str name) None [].

Definition switch (self : t) (group node : string) : M json :=
  _request self PUT ("/proxies/" ++ quote_str group)
           (Some (JObj [("name", JStr node)])) [].

Definition delay (self : t) (name : json) (test_url : string) (timeout_ms : Z)
    : M json :=
  encoded <- lift (quote name) ;;
  _request self GET ("/proxies/" ++ encoded ++ "/delay") None
           [("timeout", str_int timeout_ms); ("url", test_url)].

End Methods.

End ClashClient.

(** ** Command-line arguments, as [parser.parse_args()] returns them *)

Module Args.

Inductive subcommand : Type :=
| CmdList (groups nodes : bool)
| CmdPing (group : option string) (node : option (list string))
          (url : string) (timeout : Z)
| CmdSwitch (group node : string) (validate : bool)
| CmdConfig (show : bool).

(** [host] and [secret] are [None] when the flag is not given; [config]
    already holds argparse's default; [command] is [None] when no
    sub-command is given. *)
Record t : Type := Make {
  host : option string;
  secret : option string;
  config : string;
  command : option subcommand
}.

End Args.

(** ** Module-level constants *)

Section Program.

Context {P : platform}.

Definition DEFAULT_HOST : string :=
  match environ "CLASH_API_HOST" with
  | Some v => v
  | None => "127.0.0.1:9090"
  end.

Definition DEFAULT_SECRET : json :=
  match environ "CLASH_API_SECRET" with
  | Some v => JStr v
  | None => JNull
  end.

Definition DEFAULT_CONFIG_PATH : string :=
  expanduser (match environ "CLASH_CLI_CONFIG" with
              | Some v => v
              | None => "~/.config/clash_cli.json"
              end).

(** ** Topology *)

Definition group_kinds : list string :=
  ["Selector"; "URLTest"; "Fallback"; "LoadBalance"].

Definition is_selector (proxy_info : json) : res bool :=
  (ty <- get proxy_info "type" JNull ;;
   if hashable ty then Val (member ty (map JStr group_kinds))
   else Err (unhashable ty))%res.

(** Lines 88-90: the text printed for a group. *)
Definition group_text (name : string) (info : json) : res string :=
  (now <- get info "now" JNull ;;
   all <- get info "all" (JArr []) ;;
   members <- join_value ", " all ;;
   ty <- get info "type" (JStr "?") ;;
   Val (name ++ " [" ++ str ty ++ "]: now=" ++ str now
        ++ "; members=" ++ members))%res.

(** Line 95: the text printed for a node. *)
Definition node_text (name : string) (info : json) : res string :=
  (ty <- get info "type" (JStr "?") ;;
   udp <- get info "udp" JNull ;;
   Val (name ++ " [" ++ str ty ++ "], udp=" ++ str udp))%res.

Definition list_proxies (client : ClashClient.t) (show_groups show_nodes : bool)
    : M unit :=
  proxies <- ClashClient.proxies client ;;
  (if show_groups then
     print "=== Policy Groups ===" ;;
     entries <- lift (items proxies) ;;
     for_each entries (fun '(name, info) =>
       g <- lift (is_selector info) ;;
       if g then line <- lift (group_text name info) ;; print line
       else ret tt)
   else ret tt) ;;
  (if show_nodes then
     print "=== Endpoint Nodes ===" ;;
     entries <- lift (items proxies) ;;
     for_each entries (fun '(name, info) =>
       g <- lift (is_selector info) ;;
       if negb g then line <- lift (node_text name info) ;; print line
       else ret tt)
   else ret tt).

Definition not_a_group (group : string) : exn :=
  Exn ValueError ("'" ++ group ++ "' 不是策略组（Selector/URLTest 等）。").

Definition nodes_from_group (client : ClashClient.t) (group : string) : M json :=
  info <- ClashClient.proxy client group ;;
  g <- lift (is_selector info) ;;
  if negb g then raise (not_a_group group)
  else lift (get info "all" (JArr [])).

(** ** Delay probing *)

(** Lines 109-113: the text printed for a probe that returned. *)
Definition delay_text (name : json) (result : json) : res string :=
  (delay <- get result "delay" JNull ;;
   no_response <- (match delay with
                   | JNull => Val true
                   | _ => lt_zero delay
                   end) ;;
   if no_response then Val (str name ++ ": timeout/no response")
   else Val (str name ++ ": " ++ str delay ++ " ms"))%res.

Definition request_failed (name : json) (exc : exn) : string :=
  str name ++ ": request failed (" ++ exn_msg exc ++ ")".

(** Lines 107-115: the body of the loop. *)
Definition probe (client : ClashClient.t) (url : string) (timeout : Z)
    (name : json) : M unit :=
  try_except
    (result <- ClashClient.delay client name url timeout ;;
     line <- lift (delay_text name result) ;;
     print line)
    (fun exc => eprint (request_failed name exc)).

Definition test_delays (client : ClashClient.t) (targets : list json)
    (url : string) (timeout : Z) : M unit :=
  for_each targets (probe client url timeout).

(** ** The config store *)

Definition load_config (path : string) : M dict :=
  fun w =>
    match files w path with
    | Absent => ret [] w
    | Doc d => ret d w
    | Unreadable exc =>
        (eprint ("读取配置文件失败：" ++ exn_msg exc) ;; ret []) w
    end.

(** [mkdir], [open(path, "w")] and [json.dump]: when one of them
    raises, the exception leaves [save_config], and the file is as it
    was if it had not been opened yet and truncated if it had; otherwise
    the file holds the document [data]. *)
Definition write_file (path : string) (data : dict) : M unit :=
  fun w =>
    match write_error w path with
    | Some (BeforeOpen exc) => (Raise exc, w)
    | Some (DuringDump exc remains) =>
        (Raise exc,
         World (daemon w) (sent w)
               (fun p => if String.eqb p path then Unreadable remains
                         else files w p)
               (write_error w) (stdout w) (stderr w))
    | None =>
        (Ok tt,
         World (daemon w) (sent w)
               (fun p => if String.eqb p path then Doc data else files w p)
               (write_error w) (stdout w) (stderr w))
    end.

Definition save_config (path : string) (data : dict) : M unit :=
  write_file path data ;;
  print ("已保存配置到 " ++ path).

(** ** [main] *)

(** Lines 178-185: the store with the flags of this invocation applied. *)
Definition updated_config (args : Args.t) (stored : dict) : dict :=
  let updated := stored in
  let updated :=
    match Args.host args with
    | Some h => dict_set "host" (JStr h) updated
    | None => updated
    end in
  match Args.secret args with
  | Some s => dict_set "secret" (JStr s) updated
  | None => updated
  end.

Definition config_changed (args : Args.t) : bool :=
  match Args.host args, Args.secret args with
  | None, None => false
  | _, _ => true
  end.

(** The [config] branch, lines 177-193. *)
Definition main_config (args : Args.t) (config_path : string) (stored : dict)
    (show : bool) : M unit :=
  let updated := updated_config args stored in
  let changed := config_changed args in
  (if changed then save_config config_path updated else ret tt) ;;
  if show || negb changed then
    host_val <- lift (get (JObj updated) "host" (JStr DEFAULT_HOST)) ;;
    secret_val <- lift (get (JObj updated) "secret" DEFAULT_SECRET) ;;
    print ("host: " ++ str host_val) ;;
    print ("secret: " ++ (if truthy secret_val then str secret_val else "(empty)"))
  else ret tt.

(** Lines 196-197: the host and the secret the client is built from. *)
Definition effective_host (args : Args.t) (stored : dict) : json :=
  match Args.host args with
  | Some h => JStr h
  | None =>
      match dict_get "host" stored with
      | Some v => v
      | None => JStr DEFAULT_HOST
      end
  end.

Definition effective_secret (args : Args.t) (stored : dict) : json :=
  match Args.secret args with
  | Some s => JStr s
  | None =>
      match dict_get "secret" stored with
      | Some v => v
      | None => DEFAULT_SECRET
      end
  end.

(** The [list] branch, lines 200-204. *)
Definition main_list (client : ClashClient.t) (groups nodes : bool) : M unit :=
  let show_groups := groups || negb nodes in
  let show_nodes := nodes || negb groups in
  list_proxies client show_groups show_nodes.

(** [args.group] when it is truthy: given and not the empty string. *)
Definition nonempty (o : option string) : option string :=
  match o with
  | Some g => if String.eqb g "" then None else Some g
  | None => None
  end.

(** The [ping] branch, lines 206-216. *)
Definition main_ping (client : ClashClient.t) (group : option string)
    (node : option (list string)) (url : string) (timeout : Z) : M unit :=
  nodes <-
    (match nonempty group with
     | Some g =>
         all <- nodes_from_group client g ;;
         nodes <- lift (to_list all) ;;
         print ("Testing group '" ++ g ++ "' ("
                ++ str_int (Z.of_nat (length nodes)) ++ " nodes)") ;;
         ret nodes
     | None =>
         match node with
         | None | Some [] =>
             eprint "请通过 --group 或 --node 指定需要测速的节点。" ;;
             sys_exit 1
         | Some l => ret (map JStr l)
         end
     end) ;;
  test_delays client nodes url timeout.

(** [set(v)]: every element is hashed as it is added. *)
Definition to_set (v : json) : res (list json) :=
  match iterate v with
  | None => Err (not_iterable v)
  | Some l =>
      match find (fun x => negb (hashable x)) l with
      | Some x => Err (unhashable x)
      | None => Val (set_order (distinct [] l))
      end
  end.

Definition not_in_group (node group listing : string) : string :=
  "节点 '" ++ node ++ "' 不在策略组 '" ++ group ++ "' 中。成员：" ++ listing.

(** The [switch] branch, lines 218-226. *)
Definition main_switch (client : ClashClient.t) (group node : string)
    (validate : bool) : M unit :=
  (if validate then
     all <- nodes_from_group client group ;;
     members <- lift (to_set all) ;;
     if negb (member (JStr node) members) then
       listing <- lift (join_list ", " members) ;;
       print (not_in_group node group listing) ;;
       sys_exit 1
     else ret tt
   else ret tt) ;;
  result <- ClashClient.switch client group node ;;
  print (dumps result).

Definition main (args : Args.t) : M unit :=
  match Args.command args with
  | None => print usage ;; sys_exit 1
  | Some cmd =>
      let config_path := expanduser (Args.config args) in
      stored <- load_config config_path ;;
      match cmd with
      | Args.CmdConfig show => main_config args config_path stored show
      | _ =>
          client <- lift (ClashClient.init (effective_host args stored)
                                           (effective_secret args stored)) ;;
          match cmd with
          | Args.CmdList groups nodes => main_list client groups nodes
          | Args.CmdPing group node url timeout =>
              main_ping client group node url timeout
          | Args.CmdSwitch group node validate =>
              main_switch client group node validate
          | Args.CmdConfig _ => raise (Exn RuntimeError "未知命令")
          end
      end
  end.

End Program.

(** ** A scripted daemon, for running the program on concrete inputs *)

Module Demo.

Definition refused : exn :=
  Exn URLError "<urlopen error [Errno 111] Connection refused>".

(** The scripted daemon answers a GET by the path asked for and a PUT
    with an empty body; a path it has no answer for is a 404. *)
Fixpoint route (path : string) (routes : list (string * response)) : response :=
  match routes with
  | [] => Failure not_found
  | (p, r) :: rest => if String.eqb p path then r else route path rest
  end.

Definition answer (routes : list (string * response)) (rq : request) : response :=
  match rq_method rq with
  | GET => route (rq_path rq) routes
  | PUT => EmptyBody
  end.

(** A platform with the given environment and daemon script, on which
    paths expand to themselves and a set is walked last element first. *)
Definition scripted (env : list (string * string))
    (routes : list (string * response)) : platform :=
  {| server := unit;
     serve := fun s rq => (answer routes rq, s);
     environ := fun k =>
       match dict_get k (map (fun kv => (fst kv, JStr (snd kv))) env) with
       | Some (JStr v) => Some v
       | _ => None
       end;
     expanduser := fun p => p;
     set_order := @rev json;
     set_order_perm := fun l => Permutation_sym (Permutation_rev l);
     usage := "usage: clash_cli.py [-h] [--host HOST] [--secret SECRET] [--config CONFIG] {list,ping,switch,config} ..." |}.

(** A world with no files, nothing sent and nothing printed. *)
Definition start {P : platform} (d : server) : world :=
  World d [] (fun _ => Absent) (fun _ => None) [] [].

(** A daemon with one group, [Proxy], whose members are, in the
    daemon's order, [nodeB] then [nodeA]; the probe of [nodeA] answers
    42 ms, that of [nodeB] is refused, that of [nodeC] times out. *)
Definition group_fields : dict :=
  [("type", JStr "Selector"); ("now", JStr "nodeB");
   ("all", JArr [JStr "nodeB"; JStr "nodeA"])].

Definition node_fields : dict :=
  [("type", JStr "Shadowsocks"); ("udp", JBool true)].

Definition snapshot : dict :=
  [("Proxy", JObj group_fields); ("nodeA", JObj node_fields);
   ("nodeB", JObj node_fields)].

Definition routes : list (string * response) :=
  [("proxies", JsonBody (JObj [("proxies", JObj snapshot)]));
   ("proxies/Proxy", JsonBody (JObj group_fields));
   ("proxies/nodeA", JsonBody (JObj node_fields));
   ("proxies/nodeA/delay", JsonBody (JObj [("delay", JNum 42)]));
   ("proxies/nodeB/delay", Failure refused);
   ("proxies/nodeC/delay", JsonBody (JObj [("delay", JNum (-1))]))].

Definition home : platform := scripted [] routes.

(** The same daemon, reached from a process whose environment names
    another host. *)
Definition away : platform := scripted [("CLASH_API_HOST", "10.0.0.2:9090")] routes.


Definition client : ClashClient.t := ClashClient.Make "http://127.0.0.1:9090" JNull 10.

Definition test_url : string := "https://www.gstatic.com/generate_204".

(** The first run of a process on [home]: no config file yet. *)
Definition fresh : @world home := @start home tt.

(** A world whose config files hold a secret and a key the program
    does not know. *)
Definition stocked : @world home :=
  @World home tt []
         (fun _ => Doc [("secret", JStr "s3cret"); ("theme", JStr "dark")])
         (fun _ => None) [] [].

End Demo.

(** * Vocabulary of the properties *)

(** Spec section 4.3 in its own words: of the flag, the store and the
    environment, the first tier that is present gives the value, and the
    built-in default is used when none is. *)
Definition resolve_tiers {A : Type} (flag store env : option A) (default : A) : A :=
  match flag, store, env with
  | Some a, _, _ => a
  | None, Some b, _ => b
  | None, None, Some c => c
  | None, None, None => default
  end.

(** The request [ClashClient.delay] sends for the node called [name]. *)
Definition delay_request (client : ClashClient.t) (name url : string)
    (timeout : Z) : request :=
  ClashClient.build client GET ("/proxies/" ++ quote_str name ++ "/delay") None
                    [("timeout", str_int timeout); ("url", url)].

(** The requests a batch of probes sends: one per target that is a
    [str], in the order of the targets ([quote] raises on anything else,
    before a request is made). *)
Definition probes (client : ClashClient.t) (targets : list json) (url : string)
    (timeout : Z) : list request :=
  flat_map (fun name => match name with
                        | JStr n => [delay_request client n url timeout]
                        | _ => []
                        end) targets.

(** The request [ClashClient.proxy] sends. *)
Definition proxy_request (client : ClashClient.t) (name : string) : request :=
  ClashClient.build client GET ("/proxies/" ++ quote_str name) None [].

(** The request [ClashClient.switch] sends. *)
Definition switch_request (client : ClashClient.t) (group node : string) : request :=
  ClashClient.build client PUT ("/proxies/" ++ quote_str group)
                    (Some (JObj [("name", JStr node)])) [].

Definition timeout_line (name : json) : string :=
  str name ++ ": timeout/no response".

Definition delay_line (name : json) (d : Z) : string :=
  str name ++ ": " ++ str_int d ++ " ms".

(** Spec section 4.2 in its own words: an entry is a group when its
    kind is one of the four group kinds. *)
Definition isGroup (entry : dict) : bool :=
  match dict_get "type" entry with
  | Some (JStr kind) => existsb (String.eqb kind) group_kinds
  | _ => false
  end.

(** The entries of a snapshot that [is_selector] classifies as groups. *)
Definition classified_group (entry : string * json) : bool :=
  match is_selector (snd entry) with
  | Val g => g
  | Err _ => false
  end.

Definition groups_of (snapshot : dict) : dict := filter classified_group snapshot.

Definition nodes_of (snapshot : dict) : dict :=
  filter (fun entry => negb (classified_group entry)) snapshot.

(** The document [load_config] returns for a file in the given state. *)
Definition stored_doc (state : file_state) : dict :=
  match state with
  | Doc d => d
  | Absent | Unreadable _ => []
  end.

(** [clash_cli.py --config path config --host H --secret S], with or
    without [--show]. *)
Definition config_set (path H S : string) (show : bool) : Args.t :=
  Args.Make (Some H) (Some S) path (Some (Args.CmdConfig show)).

(** [clash_cli.py --config path config --show] *)
Definition config_show (path : string) : Args.t :=
  Args.Make None None path (Some (Args.CmdConfig true)).

(** ** Vocabulary of the further properties *)

(** The text ends with a slash. *)
Fixpoint ends_with_slash (s : string) : bool :=
  match s with
  | EmptyString => false
  | String c EmptyString => Ascii.eqb c "/"
  | String _ rest => ends_with_slash rest
  end.

(** Every character of the text satisfies [p]. *)
Fixpoint all_chars (p : ascii -> bool) (s : string) : bool :=
  match s with
  | EmptyString => true
  | String c rest => p c && all_chars p rest
  end.

(** The value of a hexadecimal digit, upper or lower case. *)
Definition hex_value (c : ascii) : N :=
  let n := N_of_ascii c in
  if ((48 <=? n) && (n <=? 57))%N then n - 48
  else if ((65 <=? n) && (n <=? 70))%N then n - 55
  else n - 87.

(** Percent-decoding, the inverse the daemon applies to a path segment. *)
Fixpoint unquote_str (s : string) : string :=
  match s with
  | EmptyString => EmptyString
  | String c rest =>
      if Ascii.eqb c "%" then
        match rest with
        | String h (String l rest') =>
            String (ascii_of_N (16 * hex_value h + hex_value l)) (unquote_str rest')
        | _ => String c (unquote_str rest)
        end
      else String c (unquote_str rest)
  end.

(** A request made through the client [c]: to its base URL, with its
    headers and its time-out. *)
Definition sent_by (c : ClashClient.t) (rq : request) : Prop :=
  rq_base rq = ClashClient.base c
  /\ rq_headers rq = ClashClient.headers c
  /\ rq_timeout rq = ClashClient.timeout c.

(** What a computation does to the world besides printing: every
    request it sends satisfies [Q], and it leaves the config files and
    their write errors as they are. *)
Definition effects {P : platform} {A : Type} (Q : request -> Prop) (m : M A) : Prop :=
  forall w : world,
    (exists new, sent (snd (m w)) = (sent w ++ new)%list /\ Forall Q new)
    /\ files (snd (m w)) = files w
    /\ write_error (snd (m w)) = write_error w.

(** The warning [load_config] prints for a file it cannot read. *)
Definition unreadable_warning (state : file_state) : list string :=
  match state with
  | Unreadable exc => ["读取配置文件失败：" ++ exn_msg exc]
  | Absent | Doc _ => []
  end.

(** The line [save_config] prints. *)
Definition saved_line (path : string) : string := "已保存配置到 " ++ path.

(** The two lines [config] shows for a document. *)
Definition shown_lines {P : platform} (d : dict) : list string :=
  let host_val := match dict_get "host" d with
                  | Some v => v
                  | None => JStr DEFAULT_HOST
                  end in
  let secret_val := match dict_get "secret" d with
                    | Some v => v
                    | None => DEFAULT_SECRET
                    end in
  ["host: " ++ str host_val;
   "secret: " ++ (if truthy secret_val then str secret_val else "(empty)")].

(** A world on [Demo.home] whose disk refuses every write: [open]
    raises. *)
Definition read_only : @world Demo.home :=
  @World Demo.home tt [] (fun _ => Absent)
         (fun path => Some (BeforeOpen
                              (Exn OSError ("[Errno 30] Read-only file system: '"
                                            ++ path ++ "'"))))
         [] [].

(** A world on [Demo.home] whose store holds a secret and whose disk
    fills up while [json.dump] writes. *)
Definition disk_full : @world Demo.home :=
  @World Demo.home tt []
         (fun _ => Doc [("secret", JStr "s3cret")])
         (fun _ => Some (DuringDump
                           (Exn OSError "[Errno 28] No space left on device")
                           (Exn JSONDecodeError
                                "Expecting value: line 1 column 1 (char 0)")))
         [] [].

(** The first line [ping --group] prints. *)
Definition testing_line (group : string) (count : nat) : string :=
  "Testing group '" ++ group ++ "' (" ++ str_int (Z.of_nat count) ++ " nodes)".

(** What [ping] prints when it has nothing to probe. *)
Definition no_targets_line : string :=
  "请通过 --group 或 --node 指定需要测速的节点。".

(** A world on [Demo.home] whose store holds a null host. *)
Definition null_host : @world Demo.home :=
  @World Demo.home tt [] (fun _ => Doc [("host", JNull)]) (fun _ => None) [] [].

(** One block of the listing as a function of the snapshot: the lines
    printed, in order, and the exception that stops the block, if any.
    An entry is printed when [wanted] holds of its class. *)
Fixpoint block (wanted : bool -> bool) (text : string -> json -> res string)
    (entries : dict) : list string * option exn :=
  match entries with
  | [] => ([], None)
  | (name, info) :: rest =>
      match is_selector info with
      | Err e => ([], Some e)
      | Val g =>
          if wanted g then
            match text name info with
            | Err e => ([], Some e)
            | Val line => (line :: fst (block wanted text rest),
                           snd (block wanted text rest))
            end
          else block wanted text rest
      end
  end.

Definition groups_block (snapshot : dict) : list string * option exn :=
  block (fun g => g) group_text snapshot.

Definition nodes_block (snapshot : dict) : list string * option exn :=
  block negb node_text snapshot.

(** The lines a listing prints: the groups block when asked for, then
    the nodes block when asked for and reached. *)
Definition listing_lines (show_groups show_nodes : bool) (snapshot : dict)
    : list string :=
  ((if show_groups
    then "=== Policy Groups ===" :: fst (groups_block snapshot) else [])
   ++ (if show_nodes
       then match (if show_groups then snd (groups_block snapshot) else None) with
            | Some _ => []
            | None => "=== Endpoint Nodes ===" :: fst (nodes_block snapshot)
            end
       else []))%list.

(** How a listing ends: with the first exception met, if any. *)
Definition listing_outcome {P : platform} (show_groups show_nodes : bool)
    (snapshot : dict) : outcome unit :=
  match (if show_groups then snd (groups_block snapshot) else None) with
  | Some e => Raise e
  | None =>
      match (if show_nodes then snd (nodes_block snapshot) else None) with
      | Some e => Raise e
      | None => Ok tt
      end
  end.

(** A daemon whose answer to the probe of [nodeA] is a JSON list. *)
Definition odd : platform :=
  Demo.scripted [] [("proxies/nodeA/delay", JsonBody (JArr []))].

(** The request [ClashClient.proxies] sends. *)
Definition proxies_request (client : ClashClient.t) : request :=
  ClashClient.build client GET "/proxies" None [].

(** The header of the first block a listing prints. *)
Definition first_header (show_groups : bool) : string :=
  if show_groups then "=== Policy Groups ===" else "=== Endpoint Nodes ===".

(** A daemon that answers every GET with an empty body. *)
Definition silent : platform := Demo.scripted [] [("proxies", EmptyBody)].

(** A daemon whose [proxies] is a list, not an object. *)
Definition listy : platform :=
  Demo.scripted [] [("proxies", JsonBody (JObj [("proxies", JArr [])]))].

(** * Properties *)

(** ** Dictionaries *)

Lemma dict_get_set_same (k : string) (v : json) (d : dict) :
  dict_get k (dict_set k v d) = Some v.
Proof.
  induction d as [|[k' v'] d IH]; simpl.
  - now rewrite String.eqb_refl.
  - destruct (String.eqb k k') eqn:E; simpl; rewrite E; auto.
Qed.

Lemma dict_get_set_other (k k' : string) (v : json) (d : dict) :
  k' <> k -> dict_get k' (dict_set k v d) = dict_get k' d.
Proof.
  intros Hne. induction d as [|[k0 v0] d IH]; simpl.
  - apply String.eqb_neq in Hne. now rewrite Hne.
  - destruct (String.eqb k k0) eqn:E; simpl.
    + apply String.eqb_eq in E. subst k0.
      apply String.eqb_neq in Hne. now rewrite Hne.
    + now rewrite IH.
Qed.

(** Setting a key leaves the keys already there in their order, and
    adds the key at the end when it is new. *)
Lemma dict_set_keys (k : string) (v : json) (d : dict) :
  map fst (dict_set k v d) =
  match dict_get k d with
  | Some _ => map fst d
  | None => (map fst d ++ [k])%list
  end.
Proof.
  induction d as [|[k' v'] d IH]; simpl; auto.
  destruct (String.eqb k k') eqn:E; simpl; auto.
  rewrite IH. now destruct (dict_get k d).
Qed.

(** ** Config precedence *)

Section Precedence.

Context {P : platform}.

Lemma updated_config_host (args : Args.t) (stored : dict) :
  dict_get "host" (updated_config args stored) =
  match Args.host args with
  | Some h => Some (JStr h)
  | None => dict_get "host" stored
  end.
Proof.
  unfold updated_config.
  destruct (Args.host args) as [h|], (Args.secret args) as [s|];
    rewrite ?dict_get_set_other by discriminate;
    rewrite ?dict_get_set_same; reflexivity.
Qed.

Lemma updated_config_secret (args : Args.t) (stored : dict) :
  dict_get "secret" (updated_config args stored) =
  match Args.secret args with
  | Some s => Some (JStr s)
  | None => dict_get "secret" stored
  end.
Proof.
  unfold updated_config.
  destruct (Args.host args) as [h|], (Args.secret args) as [s|];
    rewrite ?dict_get_set_same;
    rewrite ?dict_get_set_other by discriminate; reflexivity.
Qed.

(** C1.  For each of [host] and [secret], the value the client is built
    from is the flag when given, else the stored value when the store
    has the key, else the environment variable when set, else the
    built-in default ([127.0.0.1:9090], [None]); and the values the
    [config] sub-command shows follow the same order.  All eight
    presence combinations are the cases of [resolve_tiers]. *)
Theorem config_precedence (args : Args.t) (stored : dict) :
  let host_tiers :=
    resolve_tiers (option_map JStr (Args.host args)) (dict_get "host" stored)
                  (option_map JStr (environ "CLASH_API_HOST"))
                  (JStr "127.0.0.1:9090") in
  let secret_tiers :=
    resolve_tiers (option_map JStr (Args.secret args)) (dict_get "secret" stored)
                  (option_map JStr (environ "CLASH_API_SECRET")) JNull in
  effective_host args stored = host_tiers
  /\ effective_secret args stored = secret_tiers
  /\ get (JObj (updated_config args stored)) "host" (JStr DEFAULT_HOST)
     = Val host_tiers
  /\ get (JObj (updated_config args stored)) "secret" DEFAULT_SECRET
     = Val secret_tiers.
Proof.
  cbv zeta. unfold get.
  rewrite updated_config_host, updated_config_secret.
  unfold effective_host, effective_secret, DEFAULT_HOST, DEFAULT_SECRET,
    resolve_tiers.
  destruct (Args.host args), (Args.secret args),
    (dict_get "host" stored), (dict_get "secret" stored),
    (environ "CLASH_API_HOST"), (environ "CLASH_API_SECRET");
    simpl; repeat split; reflexivity.
Qed.

(** C6, as the code has it.  With no host flag and no stored host, the
    effective host is the value of the environment variable
    [CLASH_API_HOST] when it is set, and [127.0.0.1:9090] only when it
    is not: the host has an environment tier, as the secret has. *)
Theorem host_falls_back_to_environment (args : Args.t) (stored : dict) :
  Args.host args = None ->
  dict_get "host" stored = None ->
  effective_host args stored =
  JStr (match environ "CLASH_API_HOST" with
        | Some v => v
        | None => "127.0.0.1:9090"
        end).
Proof.
  intros Hflag Hstore. unfold effective_host, DEFAULT_HOST.
  now rewrite Hflag, Hstore.
Qed.

End Precedence.

(** An invocation with no host flag and an empty store, in a process
    whose environment sets [CLASH_API_HOST]. *)
Lemma host_falls_back_to_environment_witness :
  @effective_host Demo.away
                  (Args.Make None None "cfg" (Some (Args.CmdList false false))) []
  = JStr "10.0.0.2:9090".
Proof.
  apply (@host_falls_back_to_environment
           Demo.away
           (Args.Make None None "cfg" (Some (Args.CmdList false false))) []);
    reflexivity.
Defined.

(** C6 as the spec words it fails: the built-in default is not what the
    client gets when the environment names a host. *)
Lemma host_default_without_environment_fails :
  ~ (forall (P : platform) (args : Args.t) (stored : dict),
        Args.host args = None ->
        dict_get "host" stored = None ->
        effective_host args stored = JStr "127.0.0.1:9090").
Proof.
  intros H.
  specialize (H Demo.away
                (Args.Make None None "cfg" (Some (Args.CmdList false false))) []
                eq_refl eq_refl).
  discriminate H.
Qed.

(** ** Delay probing *)

Lemma append_inj_l (p a b : string) : p ++ a = p ++ b -> a = b.
Proof.
  induction p as [|c p IH]; simpl; intros H; auto.
  injection H as H. auto.
Qed.

Lemma str_int_negative (n : Z) :
  (n < 0)%Z -> exists r, str_int n = String "-" r.
Proof.
  destruct n as [|p|p]; try lia. intros _.
  unfold str_int. simpl. eauto.
Qed.

Lemma str_int_nonnegative (n : Z) (r : string) :
  (0 <= n)%Z -> str_int n <> String "-" r.
Proof.
  destruct n as [|p|p]; try lia; intros _.
  - discriminate.
  - unfold str_int. simpl.
    destruct (Pos.to_uint p); simpl; discriminate.
Qed.

Section Probing.

Context {P : platform}.

(** What one probe does, by what the daemon answers. *)
Lemma probe_sent (c : ClashClient.t) (url : string) (t : Z) (n : string)
    (w : world) :
  let rq := delay_request c n url t in
  let w1 := snd (urlopen rq w) in
  probe c url t (JStr n) w =
  match fst (serve (daemon w) rq) with
  | Failure e => eprint (request_failed (JStr n) e) w1
  | EmptyBody => print (timeout_line (JStr n)) w1
  | JsonBody j =>
      match delay_text (JStr n) j with
      | Val line => print line w1
      | Err e => eprint (request_failed (JStr n) e) w1
      end
  end.
Proof.
  cbv zeta.
  unfold probe, try_except, ClashClient.delay, ClashClient._request, bind,
    urlopen, delay_request; simpl.
  destruct (serve (daemon w) _) as [[e| |j] s]; simpl; try reflexivity.
  destruct (delay_text (JStr n) j); reflexivity.
Qed.

(** A target that is not a [str] is reported without a request. *)
Lemma probe_unsent (c : ClashClient.t) (url : string) (t : Z) (name : json)
    (w : world) :
  (forall n, name <> JStr n) ->
  probe c url t name w =
  eprint (request_failed name (Exn TypeError "quote_from_bytes() expected bytes")) w.
Proof.
  intros Hn. destruct name; try reflexivity. now destruct (Hn s).
Qed.

(** A probe always returns: whatever is raised inside is caught. *)
Lemma probe_returns (c : ClashClient.t) (url : string) (t : Z) (name : json)
    (w : world) :
  fst (probe c url t name w) = Ok tt
  /\ sent (snd (probe c url t name w)) = (sent w ++ probes c [name] url t)%list.
Proof.
  destruct name as [| | |n| |];
    try (rewrite probe_unsent by discriminate; simpl;
         now rewrite app_nil_r).
  rewrite probe_sent. cbv zeta. unfold urlopen. simpl.
  destruct (serve (daemon w) _) as [[e| |j] s]; simpl; auto.
  destruct (delay_text (JStr n) j); simpl; auto.
Qed.

Lemma for_each_app {A} (xs ys : list A) (body : A -> M unit) (w : world) :
  for_each (xs ++ ys)%list body w =
  match for_each xs body w with
  | (Ok _, w1) => for_each ys body w1
  | other => other
  end.
Proof.
  revert w. induction xs as [|x xs IH]; intros w; simpl.
  - reflexivity.
  - unfold bind. destruct (body x w) as [[[]|e|code] w1]; auto.
Qed.

Lemma probes_app (c : ClashClient.t) (xs ys : list json) (url : string) (t : Z) :
  probes c (xs ++ ys)%list url t = (probes c xs url t ++ probes c ys url t)%list.
Proof. unfold probes. apply flat_map_app. Qed.

(** Probing only adds to the error stream. *)
Lemma test_delays_stderr_grows (c : ClashClient.t) (targets : list json)
    (url : string) (t : Z) (w : world) :
  exists more,
    stderr (snd (test_delays c targets url t w)) = (stderr w ++ more)%list.
Proof.
  unfold test_delays. revert w.
  induction targets as [|x xs IH]; intros w; simpl.
  - exists []. now rewrite app_nil_r.
  - unfold bind.
    assert (Hx : exists more,
               stderr (snd (probe c url t x w)) = (stderr w ++ more)%list).
    { destruct x as [| | |n| |];
        try (rewrite probe_unsent by discriminate; simpl; eauto).
      rewrite probe_sent. cbv zeta. unfold urlopen.
      destruct (serve (daemon w) _) as [[e| |j] s]; simpl; eauto.
      - exists []. now rewrite app_nil_r.
      - destruct (delay_text (JStr n) j); simpl; eauto.
        exists []. now rewrite app_nil_r. }
    destruct Hx as [m1 Hx].
    destruct (probe c url t x w) as [[[]|e|code] w1]; simpl in Hx; eauto.
    destruct (IH w1) as [m2 H2]. exists (m1 ++ m2)%list.
    now rewrite H2, Hx, app_assoc.
Qed.

(** The batch always runs to its end, and asks the daemon about every
    target, in the order of the targets. *)
Lemma test_delays_returns (c : ClashClient.t) (targets : list json)
    (url : string) (t : Z) (w : world) :
  fst (test_delays c targets url t w) = Ok tt
  /\ sent (snd (test_delays c targets url t w))
     = (sent w ++ probes c targets url t)%list.
Proof.
  unfold test_delays. revert w.
  induction targets as [|x xs IH]; intros w.
  - simpl. now rewrite app_nil_r.
  - change (x :: xs) with ([x] ++ xs)%list at 3. rewrite probes_app.
    simpl for_each. unfold bind.
    destruct (probe_returns c url t x w) as [Hr Hs].
    destruct (probe c url t x w) as [[[]|e|code] w1]; cbn [fst snd] in Hr, Hs;
      try discriminate.
    destruct (IH w1) as [Hr' Hs']. split; auto.
    rewrite Hs', Hs. now rewrite app_assoc.
Qed.

(** C2.  Take any batch [xs ++ n :: ys] and let the daemon fail the
    probe of [n], in the state the probes of [xs] left, with the
    exception [e].  Then the line "n: request failed (text of e)" is
    printed on the error stream, the batch goes on with [ys] from
    there, it returns normally, and the daemon has been asked about
    every target in input order. *)
Theorem test_delays_survives_probe_failure (c : ClashClient.t)
    (xs ys : list json) (n url : string) (t : Z) (w : world)
    (e : exn) (s : server) :
  let w1 := snd (test_delays c xs url t w) in
  let rq := delay_request c n url t in
  serve (daemon w1) rq = (Failure e, s) ->
  let report := n ++ ": request failed (" ++ exn_msg e ++ ")" in
  let w2 := World s (sent w1 ++ [rq])%list (files w1) (write_error w1)
                  (stdout w1) (stderr w1 ++ [report])%list in
  let final := test_delays c (xs ++ JStr n :: ys)%list url t w in
  final = test_delays c ys url t w2
  /\ In report (stderr (snd final))
  /\ fst final = Ok tt
  /\ sent (snd final) = (sent w ++ probes c (xs ++ JStr n :: ys)%list url t)%list.
Proof.
  cbv zeta. intros Hfail.
  pose proof (test_delays_returns c (xs ++ JStr n :: ys)%list url t w) as [Hr Hs].
  assert (Hstep : test_delays c (xs ++ JStr n :: ys)%list url t w
                  = test_delays c ys url t
                      (World s (sent (snd (test_delays c xs url t w))
                                ++ [delay_request c n url t])%list
                             (files (snd (test_delays c xs url t w)))
                             (write_error (snd (test_delays c xs url t w)))
                             (stdout (snd (test_delays c xs url t w)))
                             (stderr (snd (test_delays c xs url t w))
                              ++ [request_failed (JStr n) e])%list)).
  { unfold test_delays in *. rewrite for_each_app.
    pose proof (test_delays_returns c xs url t w) as [Hr1 _].
    unfold test_delays in Hr1.
    destruct (for_each xs (probe c url t) w) as [[[]|e'|code] w1];
      simpl in Hr1; try discriminate.
    simpl in Hfail. simpl. unfold bind.
    rewrite probe_sent. cbv zeta. unfold urlopen. rewrite Hfail. reflexivity. }
  change (request_failed (JStr n) e)
    with (n ++ ": request failed (" ++ exn_msg e ++ ")") in Hstep.
  split; [exact Hstep|split; [|split]]; auto.
  rewrite Hstep.
  match goal with
  | |- In _ (stderr (snd (test_delays c ys url t ?w2))) =>
      destruct (test_delays_stderr_grows c ys url t w2) as [more Hmore]
  end.
  rewrite Hmore. simpl. apply in_or_app. left. apply in_or_app. right.
  now left.
Qed.

(** C4.  A probe answer whose delay is absent, null or negative is
    rendered as "timeout/no response"; one whose delay is an integer
    [d >= 0] is rendered as "d ms"; no answer at all is rendered with a
    negative number of milliseconds; and the rendered line is what the
    probe prints on the output stream. *)
Theorem delay_normalization (name : json) :
  (forall d : dict,
      dict_get "delay" d = None
      \/ dict_get "delay" d = Some JNull
      \/ (exists n, dict_get "delay" d = Some (JNum n) /\ (n < 0)%Z) ->
      delay_text name (JObj d) = Val (timeout_line name))
  /\ (forall (d : dict) (n : Z),
         dict_get "delay" d = Some (JNum n) -> (0 <= n)%Z ->
         delay_text name (JObj d) = Val (delay_line name n))
  /\ (forall (result : json) (n : Z),
         (n < 0)%Z -> delay_text name result <> Val (delay_line name n))
  /\ (forall (c : ClashClient.t) (url : string) (t : Z) (target : string)
             (w : world) (result : json) (line : string),
         fst (serve (daemon w) (delay_request c target url t)) = JsonBody result ->
         delay_text (JStr target) result = Val line ->
         probe c url t (JStr target) w
         = print line (snd (urlopen (delay_request c target url t) w))).
Proof.
  split; [|split; [|split]].
  - intros d [H|[H|[n [H Hn]]]]; unfold delay_text, get; simpl; rewrite H; simpl;
      auto.
    apply Z.ltb_lt in Hn. now rewrite Hn.
  - intros d n H Hn. unfold delay_text, get; simpl. rewrite H. simpl.
    apply Z.ltb_ge in Hn. now rewrite Hn.
  - intros result n Hn Heq.
    destruct (str_int_negative n Hn) as [r Hr].
    unfold delay_text, delay_line in Heq.
    destruct (get result "delay" JNull) as [v|]; simpl in Heq; try discriminate.
    destruct v as [|b|m|s|l|l]; simpl in Heq; try discriminate.
    + injection Heq as Heq. unfold timeout_line in *.
      apply append_inj_l in Heq. rewrite Hr in Heq. discriminate.
    + injection Heq as Heq. apply append_inj_l in Heq.
      change (": " ++ ?x) with (String ":" (String " " x)) in Heq.
      rewrite Hr in Heq. destruct b; discriminate.
    + destruct (m <? 0)%Z eqn:E; injection Heq as Heq; apply append_inj_l in Heq.
      * rewrite Hr in Heq. discriminate.
      * apply Z.ltb_ge in E. rewrite Hr in Heq. simpl in Heq.
        injection Heq as Heq.
        destruct (str_int m) as [|ch rest] eqn:Em; simpl in Heq; try discriminate.
        injection Heq as Hc _. subst ch.
        now apply (str_int_nonnegative m rest E).
  - intros c url t target w result line Hresp Htext.
    rewrite probe_sent. cbv zeta. now rewrite Hresp, Htext.
Qed.

End Probing.

(** ** Group members and switching *)

Lemma key_eqb_str (n : string) (x : json) :
  key_eqb (JStr n) x = true <-> x = JStr n.
Proof.
  destruct x; simpl; split; intros H; try discriminate.
  - apply String.eqb_eq in H. now subst.
  - injection H as ->. apply String.eqb_refl.
Qed.

Lemma member_str (n : string) (l : list json) :
  member (JStr n) l = true <-> In (JStr n) l.
Proof.
  unfold member. rewrite existsb_exists. split.
  - intros [x [Hin Hx]]. apply key_eqb_str in Hx. now subst.
  - intros Hin. exists (JStr n). split; auto. now apply key_eqb_str.
Qed.

Lemma member_strs (n : string) (ms : list string) :
  member (JStr n) (map JStr ms) = true <-> In n ms.
Proof.
  rewrite member_str, in_map_iff. split.
  - intros [x [Hx Hin]]. now injection Hx as ->.
  - intros Hin. eauto.
Qed.

Lemma member_app (x : json) (a b : list json) :
  member x (a ++ b)%list = member x a || member x b.
Proof. apply existsb_app. Qed.

(** [distinct] keeps one copy of every name not seen before. *)
Lemma distinct_strs (ms seen : list string) :
  exists ds,
    distinct (map JStr seen) (map JStr ms) = map JStr ds
    /\ NoDup ds
    /\ (forall m, In m ds <-> In m ms /\ ~ In m seen).
Proof.
  revert seen. induction ms as [|m ms IH]; intros seen; simpl.
  - exists []. repeat split; try constructor; simpl; tauto.
  - destruct (member (JStr m) (map JStr seen)) eqn:E.
    + apply member_strs in E.
      destruct (IH seen) as [ds [Hd [Hn Hi]]]. exists ds.
      split; [exact Hd|split; [exact Hn|]].
      intros m0. specialize (Hi m0). split; [tauto|].
      intros [[->|Hin] Hs]; tauto.
    + assert (Hm : ~ In m seen).
      { intros Hin. apply member_strs in Hin. congruence. }
      destruct (IH (seen ++ [m])%list) as [ds [Hd [Hn Hi]]].
      exists (m :: ds). rewrite map_app in Hd. simpl in Hd. rewrite Hd.
      split; [reflexivity|split].
      * constructor; auto. intros Hin. apply Hi in Hin.
        destruct Hin as [_ Hin]. apply Hin, in_or_app. simpl. tauto.
      * intros m0. specialize (Hi m0). rewrite in_app_iff in Hi. simpl in *.
        destruct (string_dec m m0) as [->|Hne]; tauto.
Qed.

Lemma join_strs_strs (i : nat) (ms : list string) :
  join_strs i (map JStr ms) = Val ms.
Proof.
  revert i. induction ms as [|m ms IH]; intros i; simpl; auto.
  now rewrite IH.
Qed.

Lemma permutation_of_strs (l : list json) (ms : list string) :
  Permutation l (map JStr ms) ->
  exists ls, l = map JStr ls /\ Permutation ls ms.
Proof.
  intros Hp.
  apply Permutation_map_inv in Hp. destruct Hp as [ls [-> Hp]].
  exists ls. split; auto. now apply Permutation_sym.
Qed.

Lemma find_unhashable_strs (ms : list string) :
  find (fun x => negb (hashable x)) (map JStr ms) = None.
Proof. induction ms; simpl; auto. Qed.

Section Switching.

Context {P : platform}.

(** The set built from a list of names lists every name once. *)
Lemma to_set_strs (ms : list string) :
  exists listed,
    to_set (JArr (map JStr ms)) = Val (map JStr listed)
    /\ NoDup listed
    /\ (forall m, In m listed <-> In m ms).
Proof.
  unfold to_set. simpl. rewrite find_unhashable_strs.
  destruct (distinct_strs ms []) as [ds [Hd [Hn Hi]]]. simpl in Hd.
  rewrite Hd.
  destruct (permutation_of_strs _ _ (set_order_perm (map JStr ds)))
    as [ls [Hls Hp]].
  exists ls. rewrite Hls. repeat split.
  - apply Permutation_sym in Hp. now apply (Permutation_NoDup Hp).
  - intros Hin. apply (Permutation_in _ Hp) in Hin. now apply Hi.
  - intros Hin. apply (Permutation_in _ (Permutation_sym Hp)), Hi. tauto.
Qed.

(** What [nodes_from_group] does, by what the daemon answers. *)
Lemma nodes_from_group_cases (c : ClashClient.t) (group : string) (w : world) :
  let rq := proxy_request c group in
  let w1 := snd (urlopen rq w) in
  nodes_from_group c group w =
  match fst (serve (daemon w) rq) with
  | Failure e => (Raise e, w1)
  | EmptyBody => (Raise (not_a_group group), w1)
  | JsonBody info =>
      match is_selector info with
      | Err e => (Raise e, w1)
      | Val false => (Raise (not_a_group group), w1)
      | Val true => lift (get info "all" (JArr [])) w1
      end
  end.
Proof.
  cbv zeta.
  unfold nodes_from_group, ClashClient.proxy, ClashClient._request, bind,
    urlopen, proxy_request; simpl.
  destruct (serve (daemon w) _) as [[e| |info] s]; simpl; try reflexivity.
  destruct (is_selector info) as [[|]|e]; reflexivity.
Qed.

(** [nodes_from_group] asks the daemon once and prints nothing. *)
Lemma nodes_from_group_effects (c : ClashClient.t) (group : string) (w : world) :
  let w1 := snd (nodes_from_group c group w) in
  sent w1 = (sent w ++ [proxy_request c group])%list
  /\ stdout w1 = stdout w /\ stderr w1 = stderr w.
Proof.
  cbv zeta. rewrite nodes_from_group_cases. cbv zeta. unfold urlopen.
  destruct (serve (daemon w) _) as [[e| |info] s]; simpl; auto.
  destruct (is_selector info) as [[|]|e]; simpl; auto.
  unfold lift. destruct (get info "all" (JArr [])); simpl; auto.
Qed.

(** For a group, the result is the member list of the answer. *)
Lemma nodes_from_group_members (c : ClashClient.t) (group : string) (w : world)
    (info : dict) :
  fst (serve (daemon w) (proxy_request c group)) = JsonBody (JObj info) ->
  is_selector (JObj info) = Val true ->
  nodes_from_group c group w =
  (Ok (match dict_get "all" info with
       | Some members => members
       | None => JArr []
       end), snd (urlopen (proxy_request c group) w)).
Proof.
  intros Hresp Hsel. rewrite nodes_from_group_cases. cbv zeta.
  now rewrite Hresp, Hsel.
Qed.


(** What [ClashClient.switch] does, by what the daemon answers. *)
Lemma switch_cases (c : ClashClient.t) (group node : string) (w : world) :
  let rq := switch_request c group node in
  let w1 := snd (urlopen rq w) in
  ClashClient.switch c group node w =
  match fst (serve (daemon w) rq) with
  | Failure e => (Raise e, w1)
  | EmptyBody => (Ok (JObj []), w1)
  | JsonBody j => (Ok j, w1)
  end.
Proof.
  cbv zeta.
  unfold ClashClient.switch, ClashClient._request, bind, urlopen,
    switch_request; simpl.
  now destruct (serve (daemon w) _) as [[e| |j] s].
Qed.

(** The mutation and the echo of its answer: the PUT is sent. *)
Lemma switch_and_print_sent (c : ClashClient.t) (group node : string) (w : world) :
  sent (snd ((result <- ClashClient.switch c group node ;;
              print (dumps result)) w))
  = (sent w ++ [switch_request c group node])%list.
Proof.
  unfold bind. rewrite switch_cases. cbv zeta. unfold urlopen.
  now destruct (serve (daemon w) _) as [[e| |j] s].
Qed.

(** [switch --validate], by what [nodes_from_group] gives. *)
Lemma main_switch_validate (c : ClashClient.t) (group node : string) (w : world) :
  main_switch c group node true w =
  match nodes_from_group c group w with
  | (Ok all, w1) =>
      match to_set all with
      | Err e => (Raise e, w1)
      | Val members =>
          if member (JStr node) members
          then (result <- ClashClient.switch c group node ;;
                print (dumps result)) w1
          else
            match join_list ", " members with
            | Err e => (Raise e, w1)
            | Val listing =>
                (Exit 1, snd (print (not_in_group node group listing) w1))
            end
      end
  | (Raise e, w1) => (Raise e, w1)
  | (Exit code, w1) => (Exit code, w1)
  end.
Proof.
  unfold main_switch. unfold bind at 1 2 3.
  destruct (nodes_from_group c group w) as [[all|e|code] w1]; auto.
  unfold lift at 1. destruct (to_set all) as [members|e]; simpl; auto.
  destruct (member (JStr node) members); simpl; auto.
  unfold bind at 1. unfold lift.
  destruct (join_list ", " members); reflexivity.
Qed.

Lemma distinct_incl (x : json) (l seen : list json) :
  In x (distinct seen l) -> In x l.
Proof.
  revert seen. induction l as [|y l IH]; intros seen; simpl; auto.
  destruct (member y seen); simpl; intros H.
  - right. eapply IH, H.
  - destruct H as [H|H]; auto. right. eapply IH, H.
Qed.

(** C3.  [switch --validate] first asks the daemon for the group.  When
    the group's members are [ms] and the node is not one of them, it
    prints the rejection, which names the node and the group and ends
    with the members, each listed once, joined by ", " in the order in
    which the set of members iterates; it exits with status 1 and sends
    no PUT.  When the node is one of them, the PUT follows the GET.
    Whatever the daemon answers, a PUT is sent only after a GET whose
    member list has the node. *)
Theorem switch_validate (c : ClashClient.t) (group node : string) (w : world) :
  let get_rq := proxy_request c group in
  let put_rq := switch_request c group node in
  let final := main_switch c group node true w in
  (forall (info : dict) (ms : list string),
      fst (serve (daemon w) get_rq) = JsonBody (JObj info) ->
      is_selector (JObj info) = Val true ->
      dict_get "all" info = Some (JArr (map JStr ms)) ->
      ~ In node ms ->
      fst final = Exit 1
      /\ sent (snd final) = (sent w ++ [get_rq])%list
      /\ exists listed,
          NoDup listed /\ (forall m, In m listed <-> In m ms)
          /\ to_set (JArr (map JStr ms)) = Val (map JStr listed)
          /\ stdout (snd final)
             = (stdout w
                ++ [("节点 '" ++ node ++ "' 不在策略组 '" ++ group
                     ++ "' 中。成员：" ++ join ", " listed)%string])%list)
  /\ (forall (info : dict) (ms : list string),
         fst (serve (daemon w) get_rq) = JsonBody (JObj info) ->
         is_selector (JObj info) = Val true ->
         dict_get "all" info = Some (JArr (map JStr ms)) ->
         In node ms ->
         sent (snd final) = (sent w ++ [get_rq; put_rq])%list)
  /\ (sent (snd final) = (sent w ++ [get_rq])%list
      \/ (sent (snd final) = (sent w ++ [get_rq; put_rq])%list
          /\ exists all members,
              fst (nodes_from_group c group w) = Ok all
              /\ iterate all = Some members
              /\ In (JStr node) members)).
Proof.
  cbv zeta. rewrite main_switch_validate.
  pose proof (nodes_from_group_effects c group w) as [Hsent [Hout _]].
  split; [|split].
  - intros info ms Hresp Hsel Hall Hnot.
    pose proof (nodes_from_group_members c group w info Hresp Hsel) as Hgrp.
    rewrite Hall in Hgrp.
    rewrite Hgrp in *. cbn [snd] in Hsent, Hout.
    destruct (to_set_strs ms) as [listed [Hset [Hnd Hin]]]. rewrite Hset.
    assert (Hm : member (JStr node) (map JStr listed) = false).
    { destruct (member (JStr node) (map JStr listed)) eqn:E; auto.
      apply member_strs, Hin in E. tauto. }
    rewrite Hm. unfold join_list. rewrite join_strs_strs. simpl.
    repeat split; auto.
    exists listed. repeat split; auto; try apply Hin. now rewrite Hout.
  - intros info ms Hresp Hsel Hall Hmem.
    pose proof (nodes_from_group_members c group w info Hresp Hsel) as Hgrp.
    rewrite Hall in Hgrp.
    rewrite Hgrp in *. cbn [snd] in Hsent.
    destruct (to_set_strs ms) as [listed [Hset [Hnd Hin]]]. rewrite Hset.
    assert (Hm : member (JStr node) (map JStr listed) = true).
    { apply member_strs, Hin, Hmem. }
    rewrite Hm, switch_and_print_sent, Hsent, <- app_assoc. reflexivity.
  - destruct (nodes_from_group c group w) as [[all|e|code] w1];
      cbn [snd] in Hsent; auto.
    destruct (to_set all) as [members|e] eqn:Hset; auto.
    destruct (member (JStr node) members) eqn:Hm.
    + right. rewrite switch_and_print_sent, Hsent, <- app_assoc.
      split; [reflexivity|].
      unfold to_set in Hset. destruct (iterate all) as [l|] eqn:Hit;
        try discriminate.
      destruct (find _ l); try discriminate. injection Hset as <-.
      exists all, l. repeat split; auto.
      apply member_str in Hm.
      apply (Permutation_in _ (set_order_perm _)) in Hm.
      now apply distinct_incl in Hm.
    + left. destruct (join_list ", " members); auto.
Qed.

End Switching.

(** ** Groups and nodes *)

Lemma filter_partition {A} (f : A -> bool) (l : list A) :
  Permutation (filter f l ++ filter (fun x => negb (f x)) l)%list l.
Proof.
  induction l as [|x l IH]; simpl; auto.
  destruct (f x); simpl.
  - now constructor.
  - apply Permutation_sym, Permutation_cons_app. now apply Permutation_sym.
Qed.

Lemma is_selector_kind (entry : dict) :
  is_selector (JObj entry) = Val true <-> isGroup entry = true.
Proof.
  unfold is_selector, isGroup, get, and_then.
  destruct (dict_get "type" entry) as [[|b|n|k|l|l]|]; simpl;
    try (split; discriminate).
  split; intros H; [now injection H|now rewrite H].
Qed.

Section Listing.

Context {P : platform}.

Lemma bind_ok {A B} (m : M A) (k : A -> M B) (w w' : world) (b : B) :
  bind m k w = (Ok b, w') ->
  exists a w1, m w = (Ok a, w1) /\ k a w1 = (Ok b, w').
Proof.
  unfold bind. destruct (m w) as [[a|e|code] w1]; try discriminate. eauto.
Qed.

Lemma lift_ok {A} (r : res A) (w w' : world) (a : A) :
  lift r w = (Ok a, w') -> r = Val a /\ w' = w.
Proof.
  destruct r; simpl; unfold ret, raise; intros H; try discriminate.
  now injection H as -> ->.
Qed.

(** Fetching the snapshot prints nothing. *)
Lemma proxies_quiet (c : ClashClient.t) (w : world) :
  stdout (snd (ClashClient.proxies c w)) = stdout w.
Proof.
  unfold ClashClient.proxies, ClashClient._request, bind, urlopen. simpl.
  destruct (serve (daemon w) _) as [[e| |j] s]; simpl; auto.
  unfold lift. now destruct (get j "proxies" (JObj [])).
Qed.

(** One pass of [list_proxies] over the snapshot: the entries whose
    class is wanted are printed, one line each, in snapshot order. *)
Lemma listing_pass (wanted : bool -> bool)
    (text : string -> json -> res string) (entries : dict) (w w' : world) :
  for_each entries (fun '(name, info) =>
    g <- lift (is_selector info) ;;
    if wanted g then line <- lift (text name info) ;; print line
    else ret tt) w = (Ok tt, w') ->
  exists lines,
    Forall2 (fun entry line => text (fst entry) (snd entry) = Val line)
            (filter (fun entry => wanted (classified_group entry)) entries) lines
    /\ stdout w' = (stdout w ++ lines)%list
    /\ Forall (fun entry => exists g, is_selector (snd entry) = Val g) entries.
Proof.
  revert w. induction entries as [|[name info] entries IH]; intros w; simpl.
  - intros H. injection H as <-. exists []. rewrite app_nil_r. auto.
  - unfold bind at 1 2. unfold classified_group at 1. simpl.
    destruct (is_selector info) as [g|e] eqn:Hsel; simpl; try discriminate.
    destruct (wanted g).
    + unfold bind at 1. destruct (text name info) as [line|e] eqn:Htext; simpl;
        try discriminate.
      intros H. apply IH in H. destruct H as [lines [Hl [Hs Hall]]].
      exists (line :: lines). simpl in Hs.
      rewrite Hs, <- app_assoc. repeat split; eauto.
    + intros H. apply IH in H. destruct H as [lines [Hl [Hs Hall]]].
      exists lines. repeat split; eauto.
Qed.

(** C5.  An entry is classified as a group exactly when its [type] is
    one of Selector, URLTest, Fallback and LoadBalance.  A listing of a
    snapshot that runs to its end prints the groups block with one line
    per group and the nodes block with one line per other entry, both in
    snapshot order; the two blocks together hold every entry of the
    snapshot, and no entry is in both. *)
Theorem groups_and_nodes_partition :
  (forall entry : dict,
      is_selector (JObj entry) = Val true <->
      exists kind, dict_get "type" entry = Some (JStr kind)
                   /\ In kind ["Selector"; "URLTest"; "Fallback"; "LoadBalance"])
  /\ (forall snapshot : dict,
         Permutation (groups_of snapshot ++ nodes_of snapshot)%list snapshot
         /\ forall entry, In entry (groups_of snapshot) ->
                          ~ In entry (nodes_of snapshot))
  /\ (forall (c : ClashClient.t) (w w' : world),
         list_proxies c true true w = (Ok tt, w') ->
         exists snapshot group_lines node_lines,
           fst (ClashClient.proxies c w) = Ok (JObj snapshot)
           /\ Forall2 (fun entry line => group_text (fst entry) (snd entry) = Val line)
                      (groups_of snapshot) group_lines
           /\ Forall2 (fun entry line => node_text (fst entry) (snd entry) = Val line)
                      (nodes_of snapshot) node_lines
           /\ stdout w' = (stdout w ++ "=== Policy Groups ===" :: group_lines
                           ++ "=== Endpoint Nodes ===" :: node_lines)%list).
Proof.
  split; [|split].
  - intros entry. rewrite is_selector_kind. unfold isGroup.
    destruct (dict_get "type" entry) as [[|b|n|k|l|l]|];
      try (split; [discriminate|intros [kind [H _]]; discriminate]).
    rewrite existsb_exists. split.
    + intros [x [Hin Hx]]. apply String.eqb_eq in Hx. subst. eauto.
    + intros [kind [Hk Hin]]. injection Hk as <-. exists k. split; auto.
      apply String.eqb_refl.
  - intros snapshot. split; [apply filter_partition|].
    unfold groups_of, nodes_of. intros entry Hg Hn.
    apply filter_In in Hg, Hn. destruct Hg as [_ Hg], Hn as [_ Hn].
    rewrite Hg in Hn. discriminate.
  - intros c w w' Hrun. unfold list_proxies in Hrun.
    apply bind_ok in Hrun. destruct Hrun as [proxies [w0 [Hprox Hrun]]].
    apply bind_ok in Hrun. destruct Hrun as [[] [w3 [Hgroups Hnodes]]].
    apply bind_ok in Hgroups. destruct Hgroups as [[] [w1 [Hh1 Hgroups]]].
    apply bind_ok in Hgroups. destruct Hgroups as [snapshot [w1' [Hit Hgroups]]].
    apply lift_ok in Hit. destruct Hit as [Hit ->].
    apply bind_ok in Hnodes. destruct Hnodes as [[] [w4 [Hh2 Hnodes]]].
    apply bind_ok in Hnodes. destruct Hnodes as [snapshot' [w4' [Hit' Hnodes]]].
    apply lift_ok in Hit'. destruct Hit' as [Hit' ->].
    rewrite Hit in Hit'. injection Hit' as <-.
    destruct proxies; try discriminate. injection Hit as ->.
    apply (listing_pass (fun g => g) group_text) in Hgroups.
    destruct Hgroups as [glines [Hg [Hs1 _]]].
    apply (listing_pass negb node_text) in Hnodes.
    destruct Hnodes as [nlines [Hn [Hs2 _]]].
    injection Hh1 as <-. injection Hh2 as <-.
    exists snapshot, glines, nlines. rewrite Hprox. repeat split; auto.
    rewrite Hs2. simpl. rewrite Hs1. simpl.
    pose proof (proxies_quiet c w) as Hq. rewrite Hprox in Hq. simpl in Hq.
    rewrite Hq, <- !app_assoc. reflexivity.
Qed.

End Listing.

(** ** The config store *)

Section Store.

Context {P : platform}.

Lemma load_config_cases (path : string) (w : world) :
  fst (load_config path w) = Ok (stored_doc (files w path))
  /\ files (snd (load_config path w)) = files w
  /\ write_error (snd (load_config path w)) = write_error w
  /\ stdout (snd (load_config path w)) = stdout w.
Proof.
  unfold load_config. destruct (files w path); simpl; auto.
Qed.

(** A [config] invocation that sets something rewrites the store with
    the flags applied to what was stored. *)
Lemma main_config_writes (args : Args.t) (show : bool) (w : world) :
  let path := expanduser (Args.config args) in
  Args.command args = Some (Args.CmdConfig show) ->
  config_changed args = true ->
  write_error w path = None ->
  files (snd (main args w)) path
  = Doc (updated_config args (stored_doc (files w path))).
Proof.
  cbv zeta. intros Hcmd Hchanged Hwr.
  unfold main. rewrite Hcmd. unfold bind at 1.
  destruct (load_config_cases (expanduser (Args.config args)) w)
    as [Hr [Hf [He _]]].
  destruct (load_config _ w) as [r w0]. simpl in Hr, Hf, He. subst r.
  unfold main_config. rewrite Hchanged.
  unfold save_config, write_file, bind at 1 2. rewrite He, Hwr, Hf.
  cbn [print fst snd].
  destruct (show || negb true); simpl; now rewrite String.eqb_refl.
Qed.

(** A [config --show] invocation with no flags prints what is stored. *)
Lemma main_config_shows (path : string) (w : world) :
  let stored := stored_doc (files w (expanduser path)) in
  main (config_show path) w =
  (host_val <- lift (get (JObj stored) "host" (JStr DEFAULT_HOST)) ;;
   secret_val <- lift (get (JObj stored) "secret" DEFAULT_SECRET) ;;
   print ("host: " ++ str host_val) ;;
   print ("secret: " ++ (if truthy secret_val then str secret_val else "(empty)")))
    (snd (load_config (expanduser path) w)).
Proof.
  cbv zeta. unfold main, config_show. simpl. unfold bind at 1.
  destruct (load_config_cases (expanduser path) w) as [Hr _].
  destruct (load_config _ w) as [r w0]. simpl in Hr. subst r.
  reflexivity.
Qed.

(** C8, as the code has it.  After [config --host H --secret S] has
    written the store, the store holds [H] and [S], and a following
    [config --show] with no flags prints [H] as the host and, as the
    secret, [S] when [S] is not empty and the text "(empty)" when it
    is. *)
Theorem config_round_trip (path H S : string) (show : bool) (w : world) :
  write_error w (expanduser path) = None ->
  let w1 := snd (main (config_set path H S show) w) in
  let second := main (config_show path) w1 in
  (exists d, files w1 (expanduser path) = Doc d
             /\ dict_get "host" d = Some (JStr H)
             /\ dict_get "secret" d = Some (JStr S))
  /\ fst second = Ok tt
  /\ stdout (snd second)
     = (stdout w1
        ++ [("host: " ++ H)%string;
            ("secret: " ++ (if String.eqb S "" then "(empty)" else S))%string])%list.
Proof.
  intros Hwr. cbv zeta.
  pose proof (main_config_writes (config_set path H S show) show w
                                 eq_refl eq_refl Hwr) as Hfile.
  simpl Args.config in Hfile.
  set (w1 := snd (main (config_set path H S show) w)) in *.
  split.
  - eexists. split; [exact Hfile|].
    rewrite updated_config_host, updated_config_secret. auto.
  - rewrite main_config_shows. cbv zeta. rewrite Hfile.
    destruct (load_config_cases (expanduser path) w1) as [_ [_ [_ Hout]]].
    destruct (load_config _ w1) as [r w0]. simpl in Hout. simpl snd.
    simpl stored_doc. unfold get.
    rewrite updated_config_host, updated_config_secret. simpl.
    unfold bind, lift, ret, print. simpl. rewrite Hout.
    rewrite <- app_assoc. simpl. destruct (String.eqb S ""); auto.
Qed.

(** C10.  A [config] invocation that sets only the host rewrites the
    store as the stored document with ["host"] set; every other key
    keeps its value, and the keys that were there keep their order.
    The same holds for one that sets only the secret. *)
Theorem config_keeps_other_keys (path value : string) (show : bool) (w : world) :
  write_error w (expanduser path) = None ->
  let prior := stored_doc (files w (expanduser path)) in
  let rewritten (args : Args.t) := files (snd (main args w)) (expanduser path) in
  let only_host := Args.Make (Some value) None path (Some (Args.CmdConfig show)) in
  let only_secret := Args.Make None (Some value) path (Some (Args.CmdConfig show)) in
  (rewritten only_host = Doc (dict_set "host" (JStr value) prior)
   /\ rewritten only_secret = Doc (dict_set "secret" (JStr value) prior))
  /\ (forall field key,
         key <> field ->
         dict_get key (dict_set field (JStr value) prior) = dict_get key prior)
  /\ (forall field,
         dict_get field (dict_set field (JStr value) prior) = Some (JStr value))
  /\ (forall field,
         exists added,
           map fst (dict_set field (JStr value) prior)
           = (map fst prior ++ added)%list).
Proof.
  intros Hwr. cbv zeta. repeat split.
  - exact (main_config_writes
             (Args.Make (Some value) None path (Some (Args.CmdConfig show)))
             show w eq_refl eq_refl Hwr).
  - exact (main_config_writes
             (Args.Make None (Some value) path (Some (Args.CmdConfig show)))
             show w eq_refl eq_refl Hwr).
  - intros field key Hne. now apply dict_get_set_other.
  - intros field. apply dict_get_set_same.
  - intros field. rewrite dict_set_keys.
    destruct (dict_get field _); [exists []|exists [field]]; auto.
    now rewrite app_nil_r.
Qed.

End Store.

(** * Further properties *)

(** ** The base URL and path segments *)

Lemma rstrip_slash_no_trailing (s : string) :
  ends_with_slash (rstrip_slash s) = false.
Proof.
  induction s as [|c s IH]; simpl; auto.
  destruct (rstrip_slash s) as [|d r] eqn:E.
  - destruct (Ascii.eqb c "/") eqn:Ec; simpl; auto.
  - simpl in *. exact IH.
Qed.

Lemma rstrip_slash_fixed (s : string) :
  ends_with_slash s = false -> rstrip_slash s = s.
Proof.
  induction s as [|c s IH]; simpl; auto.
  destruct s as [|d r].
  - simpl. intros ->. reflexivity.
  - intros H. rewrite (IH H). reflexivity.
Qed.

Lemma rstrip_slash_app (a b : string) :
  rstrip_slash b <> "" -> rstrip_slash (a ++ b) = a ++ rstrip_slash b.
Proof.
  intros Hb. induction a as [|c a IH]; simpl; auto.
  rewrite IH. destruct (a ++ rstrip_slash b) eqn:E; auto.
  destruct a; simpl in E; [contradiction|discriminate].
Qed.

(** X1.  The client built from a host string has a base URL with no
    trailing slash; a host that starts with a scheme keeps it, any other
    host whose text is more than slashes gets [http://] in front; the
    time-out is 10 and the secret is stored as given.  A host that is
    not a string raises [AttributeError]. *)
Theorem init_base (h : string) (secret : json) :
  (exists c,
      ClashClient.init (JStr h) secret = Val c
      /\ ClashClient.secret c = secret
      /\ ClashClient.timeout c = 10%Z
      /\ ends_with_slash (ClashClient.base c) = false
      /\ (startswith "http://" h || startswith "https://" h = true ->
          ClashClient.base c = rstrip_slash h)
      /\ (startswith "http://" h || startswith "https://" h = false ->
          rstrip_slash h <> "" ->
          ClashClient.base c = "http://" ++ rstrip_slash h)
      /\ (ends_with_slash h = false -> rstrip_slash h = h))
  /\ (forall host, (forall s, host <> JStr s) ->
                   ClashClient.init host secret
                   = Err (no_attribute host "startswith")).
Proof.
  split.
  - unfold ClashClient.init.
    destruct (startswith "http://" h || startswith "https://" h) eqn:E;
      eexists; (split; [reflexivity|]);
      cbn [ClashClient.base ClashClient.secret ClashClient.timeout];
      (split; [reflexivity|]); (split; [reflexivity|]);
      (split; [apply rstrip_slash_no_trailing|]);
      (split; [|split]); auto using rstrip_slash_fixed; try discriminate.
    intros _ Hne. now apply (rstrip_slash_app "http://").
  - intros host Hh. destruct host; try reflexivity. now destruct (Hh s).
Qed.

Lemma append_assoc (a b c : string) : (a ++ b) ++ c = a ++ (b ++ c).
Proof. induction a as [|x a IH]; simpl; auto. now rewrite IH. Qed.

Lemma hex_byte_unreserved (c : ascii) :
  all_chars unreserved (hex_byte true c) = true.
Proof.
  destruct c as [[] [] [] [] [] [] [] []]; reflexivity.
Qed.

Lemma hex_byte_decodes (c : ascii) :
  match hex_byte true c with
  | String h (String l EmptyString) => ascii_of_N (16 * hex_value h + hex_value l) = c
  | _ => False
  end.
Proof.
  destruct c as [[] [] [] [] [] [] [] []]; reflexivity.
Qed.

Lemma unreserved_not_percent (c : ascii) :
  unreserved c = true -> Ascii.eqb c "%" = false.
Proof.
  destruct c as [[] [] [] [] [] [] [] []]; simpl; intros H;
    try reflexivity; discriminate H.
Qed.

Lemma all_chars_app (p : ascii -> bool) (a b : string) :
  all_chars p (a ++ b) = all_chars p a && all_chars p b.
Proof.
  induction a as [|c a IH]; simpl; auto. now rewrite IH, andb_assoc.
Qed.

Lemma all_chars_weaken (p q : ascii -> bool) (s : string) :
  (forall c, p c = true -> q c = true) ->
  all_chars p s = true -> all_chars q s = true.
Proof.
  intros Hpq. induction s as [|c s IH]; simpl; auto.
  intros H. apply andb_prop in H. destruct H as [Hc Hs].
  now rewrite (Hpq c Hc), IH.
Qed.

Lemma all_chars_excludes (p : ascii -> bool) (c : ascii) (s : string) :
  p c = false -> all_chars p s = true -> contains_char c s = false.
Proof.
  intros Hc. induction s as [|d s IH]; simpl; auto.
  intros H. apply andb_prop in H. destruct H as [Hd Hs].
  rewrite (IH Hs), orb_false_r.
  destruct (Ascii.eqb c d) eqn:E; auto.
  apply Ascii.eqb_eq in E. congruence.
Qed.

Lemma quote_str_chars (s : string) :
  all_chars (fun c => unreserved c || Ascii.eqb c "%") (quote_str s) = true.
Proof.
  induction s as [|c s IH]; cbn [quote_str]; auto.
  rewrite all_chars_app, IH, andb_true_r.
  destruct (unreserved c) eqn:E.
  - cbn [all_chars]. now rewrite E.
  - change ("%" ++ hex_byte true c) with (String "%" (hex_byte true c)).
    cbn [all_chars]. rewrite orb_true_r. cbn [andb].
    apply (all_chars_weaken unreserved); [|apply hex_byte_unreserved].
    intros d Hd. now rewrite Hd.
Qed.

Lemma quote_str_no_slash (s : string) : contains_char "/" (quote_str s) = false.
Proof.
  eapply all_chars_excludes; [|apply quote_str_chars]. reflexivity.
Qed.

Lemma unquote_quote (s : string) : unquote_str (quote_str s) = s.
Proof.
  induction s as [|c s IH]; cbn [quote_str]; auto.
  destruct (unreserved c) eqn:E.
  - cbn [append unquote_str]. now rewrite (unreserved_not_percent c E), IH.
  - pose proof (hex_byte_decodes c) as Hd.
    destruct (hex_byte true c) as [|h [|l [|x r]]]; try contradiction.
    cbn [append unquote_str]. rewrite Ascii.eqb_refl. now rewrite Hd, IH.
Qed.

Lemma quote_str_inj (a b : string) : quote_str a = quote_str b -> a = b.
Proof.
  intros H. rewrite <- (unquote_quote a), <- (unquote_quote b). now rewrite H.
Qed.

Lemma split_slash_whole (s : string) :
  contains_char "/" s = false -> split_slash s = [s].
Proof.
  induction s as [|c s IH]; cbn [contains_char split_slash]; auto.
  intros H. apply orb_false_elim in H. destruct H as [Hc Hs].
  rewrite Ascii.eqb_sym, Hc, (IH Hs). reflexivity.
Qed.

Lemma split_slash_first (a b : string) :
  contains_char "/" a = false ->
  split_slash (a ++ String "/" b) = a :: split_slash b.
Proof.
  induction a as [|c a IH]; cbn [contains_char split_slash append].
  - reflexivity.
  - intros H. apply orb_false_elim in H. destruct H as [Hc Hs].
    rewrite Ascii.eqb_sym, Hc, (IH Hs). reflexivity.
Qed.

(** The path requested for [proxies/q], [q] a name without a slash. *)
Lemma joined_path_name (q : string) :
  contains_char "/" q = false ->
  joined_path ("proxies/" ++ q) =
  if String.eqb q ".." then ""
  else if String.eqb q "." then "proxies/"
  else "proxies/" ++ q.
Proof.
  intros Hq. unfold joined_path.
  change ("proxies/" ++ q) with ("proxies" ++ String "/" q).
  rewrite split_slash_first by reflexivity. rewrite (split_slash_whole q Hq).
  cbn [drop_empty_middle String.eqb Ascii.eqb Bool.eqb].
  cbn [resolve_dots last]. change (String.eqb "proxies" "..") with false.
  change (String.eqb "proxies" ".") with false. cbv iota.
  cbn [app resolve_dots].
  destruct (String.eqb q "..") eqn:E2.
  - rewrite orb_true_r. reflexivity.
  - destruct (String.eqb q ".") eqn:E1; reflexivity.
Qed.

(** The path requested for [proxies/q/delay]. *)
Lemma joined_path_delay (q : string) :
  contains_char "/" q = false ->
  joined_path ("proxies/" ++ q ++ "/delay") =
  if String.eqb q "" then "proxies/delay"
  else if String.eqb q ".." then "delay"
  else if String.eqb q "." then "proxies/delay"
  else "proxies/" ++ q ++ "/delay".
Proof.
  intros Hq. unfold joined_path.
  change ("proxies/" ++ q ++ "/delay")
    with ("proxies" ++ String "/" (q ++ String "/" "delay")).
  rewrite split_slash_first by reflexivity.
  rewrite (split_slash_first q "delay" Hq).
  change (split_slash "delay") with ["delay"].
  cbn [drop_empty_middle]. change (String.eqb "proxies" "") with false.
  cbv iota.
  destruct (String.eqb q "") eqn:E0.
  - reflexivity.
  - cbn [resolve_dots last]. change (String.eqb "proxies" "..") with false.
    change (String.eqb "proxies" ".") with false. cbv iota. cbn [app].
    destruct (String.eqb q "..") eqn:E2; [reflexivity|].
    destruct (String.eqb q ".") eqn:E1; reflexivity.
Qed.

Lemma quote_str_unreserved (s : string) :
  all_chars unreserved s = true -> quote_str s = s.
Proof.
  induction s as [|ch s IH]; cbn [quote_str all_chars]; auto.
  intros H. apply andb_prop in H. destruct H as [Hc Hs].
  now rewrite Hc, (IH Hs).
Qed.

Lemma quote_str_eqb (name lit : string) :
  all_chars unreserved lit = true ->
  String.eqb (quote_str name) lit = String.eqb name lit.
Proof.
  intros Hlit. destruct (String.eqb name lit) eqn:E.
  - apply String.eqb_eq in E. subst. apply String.eqb_eq.
    now apply quote_str_unreserved.
  - apply String.eqb_neq. intros H. apply String.eqb_neq in E. apply E.
    apply quote_str_inj. rewrite H. symmetry.
    now apply quote_str_unreserved.
Qed.

Lemma request_path_proxy (c : ClashClient.t) (name : string) :
  rq_path (proxy_request c name) =
  if String.eqb name ".." then ""
  else if String.eqb name "." then "proxies/"
  else "proxies/" ++ quote_str name.
Proof.
  unfold proxy_request, ClashClient.build. cbn [rq_path].
  change (lstrip_slash ("/proxies/" ++ quote_str name))
    with ("proxies/" ++ quote_str name).
  rewrite (joined_path_name _ (quote_str_no_slash name)).
  now rewrite !quote_str_eqb by reflexivity.
Qed.

Lemma request_path_switch (c : ClashClient.t) (group node : string) :
  rq_path (switch_request c group node) = rq_path (proxy_request c group).
Proof. reflexivity. Qed.

Lemma request_path_delay (c : ClashClient.t) (name url : string) (t : Z) :
  rq_path (delay_request c name url t) =
  if String.eqb name "" then "proxies/delay"
  else if String.eqb name ".." then "delay"
  else if String.eqb name "." then "proxies/delay"
  else "proxies/" ++ quote_str name ++ "/delay".
Proof.
  unfold delay_request, ClashClient.build. cbn [rq_path].
  change (lstrip_slash ("/proxies/" ++ quote_str name ++ "/delay"))
    with ("proxies/" ++ quote_str name ++ "/delay").
  rewrite (joined_path_delay _ (quote_str_no_slash name)).
  now rewrite !quote_str_eqb by reflexivity.
Qed.

Lemma append_slash_inj (a b x y : string) :
  contains_char "/" a = false -> contains_char "/" b = false ->
  a ++ String "/" x = b ++ String "/" y -> a = b.
Proof.
  revert b. induction a as [|c a IH]; intros [|d b];
    cbn [contains_char append]; intros Ha Hb H; auto.
  - injection H as Hc _. subst d. apply orb_false_elim in Hb.
    destruct Hb as [Hb _]. now rewrite Ascii.eqb_refl in Hb.
  - injection H as Hc _. subst c. apply orb_false_elim in Ha.
    destruct Ha as [Ha _]. now rewrite Ascii.eqb_refl in Ha.
  - injection H as -> H.
    apply orb_false_elim in Ha. apply orb_false_elim in Hb.
    f_equal. apply IH; tauto.
Qed.

(** X2.  Where the requests for a name go.  For a name other than [.]
    and [..], the GET and the PUT of the name are requested at
    [proxies/<encoded name>] below the base, and for a name that is not
    empty either, its probe at [proxies/<encoded name>/delay]; the
    encoded name is made of unreserved characters and percent signs, so
    it holds no slash and takes one segment, and a name of unreserved
    characters is sent as it is.  The names [.] and [..] are not
    requested there: joining the URL resolves them, so [.] is asked for
    at [proxies/], like the empty name, and [..] at the directory of the
    base itself; the probe of the empty name and of [.] goes to
    [proxies/delay], that of [..] to [delay]. *)
Theorem request_paths (c : ClashClient.t) (name node url : string) (t : Z) :
  (name <> "." -> name <> ".." ->
   rq_path (proxy_request c name) = "proxies/" ++ quote_str name
   /\ rq_path (switch_request c name node) = "proxies/" ++ quote_str name
   /\ (name <> "" ->
       rq_path (delay_request c name url t)
       = "proxies/" ++ quote_str name ++ "/delay"))
  /\ all_chars (fun ch => unreserved ch || Ascii.eqb ch "%") (quote_str name) = true
  /\ contains_char "/" (quote_str name) = false
  /\ (all_chars unreserved name = true -> quote_str name = name)
  /\ (rq_path (proxy_request c ".") = "proxies/"
      /\ rq_path (proxy_request c "") = "proxies/"
      /\ rq_path (proxy_request c "..") = ""
      /\ rq_path (switch_request c ".." node) = ""
      /\ rq_path (delay_request c "" url t) = "proxies/delay"
      /\ rq_path (delay_request c "." url t) = "proxies/delay"
      /\ rq_path (delay_request c ".." url t) = "delay").
Proof.
  split; [|split; [|split; [|split]]].
  - intros H1 H2. apply String.eqb_neq in H1, H2.
    rewrite request_path_switch, request_path_proxy, H1, H2.
    split; [reflexivity|split; [reflexivity|]].
    intros H0. apply String.eqb_neq in H0.
    now rewrite request_path_delay, H0, H1, H2.
  - apply quote_str_chars.
  - apply quote_str_no_slash.
  - apply quote_str_unreserved.
  - rewrite request_path_switch, !request_path_proxy, !request_path_delay.
    repeat split.
Qed.

(** X3.  Two different names, neither of them [.] or [..], are never
    requested at the same path: their GET and PUT paths differ, and so
    do the paths of their probes when neither name is empty.  The
    exceptions are real: [.] and the empty name share a path. *)
Theorem request_paths_distinct (c : ClashClient.t) (a b node url : string) (t : Z) :
  (a <> b ->
   a <> "." -> a <> ".." -> b <> "." -> b <> ".." ->
   rq_path (proxy_request c a) <> rq_path (proxy_request c b)
   /\ rq_path (switch_request c a node) <> rq_path (switch_request c b node)
   /\ (a <> "" -> b <> "" ->
       rq_path (delay_request c a url t) <> rq_path (delay_request c b url t)))
  /\ rq_path (proxy_request c ".") = rq_path (proxy_request c "").
Proof.
  split.
  - intros Hab Ha1 Ha2 Hb1 Hb2.
    apply String.eqb_neq in Ha1, Ha2, Hb1, Hb2.
    rewrite !request_path_switch, !request_path_proxy, Ha1, Ha2, Hb1, Hb2.
    assert (Hp : "proxies/" ++ quote_str a <> "proxies/" ++ quote_str b).
    { intros H. apply append_inj_l in H. now apply quote_str_inj in H. }
    split; [exact Hp|split; [exact Hp|]].
    intros Ha0 Hb0. apply String.eqb_neq in Ha0, Hb0.
    rewrite !request_path_delay, Ha0, Ha1, Ha2, Hb0, Hb1, Hb2.
    intros H. apply append_inj_l in H.
    change (quote_str a ++ "/delay") with (quote_str a ++ String "/" "delay") in H.
    change (quote_str b ++ "/delay") with (quote_str b ++ String "/" "delay") in H.
    apply append_slash_inj in H; auto using quote_str_no_slash.
    now apply quote_str_inj in H.
  - now rewrite !request_path_proxy.
Qed.

(** ** What the operations send and what they leave alone *)

Section Effects.

Context {P : platform}.

Lemma effects_ret {A} (Q : request -> Prop) (a : A) : effects Q (ret a).
Proof. intros w. simpl. split; auto. exists []. now rewrite app_nil_r. Qed.

Lemma effects_raise {A} (Q : request -> Prop) (e : exn) : effects Q (@raise _ A e).
Proof. intros w. simpl. split; auto. exists []. now rewrite app_nil_r. Qed.

Lemma effects_exit {A} (Q : request -> Prop) (code : Z) :
  effects Q (@sys_exit _ A code).
Proof. intros w. simpl. split; auto. exists []. now rewrite app_nil_r. Qed.

Lemma effects_lift {A} (Q : request -> Prop) (r : res A) : effects Q (lift r).
Proof. destruct r; [apply effects_ret|apply effects_raise]. Qed.

Lemma effects_print (Q : request -> Prop) (line : string) : effects Q (print line).
Proof. intros w. simpl. split; auto. exists []. now rewrite app_nil_r. Qed.

Lemma effects_eprint (Q : request -> Prop) (line : string) : effects Q (eprint line).
Proof. intros w. simpl. split; auto. exists []. now rewrite app_nil_r. Qed.

Lemma effects_urlopen (Q : request -> Prop) (rq : request) :
  Q rq -> effects Q (urlopen rq).
Proof.
  intros HQ w. unfold urlopen. destruct (serve (daemon w) rq) as [r d]. simpl.
  split; auto. exists [rq]. auto.
Qed.

Lemma effects_bind {A B} (Q : request -> Prop) (m : M A) (k : A -> M B) :
  effects Q m -> (forall a, effects Q (k a)) -> effects Q (bind m k).
Proof.
  intros Hm Hk w. unfold bind.
  destruct (Hm w) as [[n1 [Hs1 Hq1]] [Hf1 He1]].
  destruct (m w) as [[a|e|code] w1]; simpl in *;
    try (split; [exists n1; auto|auto]; fail).
  destruct (Hk a w1) as [[n2 [Hs2 Hq2]] [Hf2 He2]].
  split; [|split; congruence].
  exists (n1 ++ n2)%list. split.
  - now rewrite Hs2, Hs1, app_assoc.
  - apply Forall_app. auto.
Qed.

Lemma effects_try {A} (Q : request -> Prop) (body : M A) (handler : exn -> M A) :
  effects Q body -> (forall e, effects Q (handler e)) ->
  effects Q (try_except body handler).
Proof.
  intros Hm Hk w. unfold try_except.
  destruct (Hm w) as [[n1 [Hs1 Hq1]] [Hf1 He1]].
  destruct (body w) as [[a|e|code] w1]; simpl in *;
    try (split; [exists n1; auto|auto]; fail).
  destruct (Hk e w1) as [[n2 [Hs2 Hq2]] [Hf2 He2]].
  split; [|split; congruence].
  exists (n1 ++ n2)%list. split.
  - now rewrite Hs2, Hs1, app_assoc.
  - apply Forall_app. auto.
Qed.

Lemma effects_for_each {A} (Q : request -> Prop) (l : list A) (body : A -> M unit) :
  (forall x, effects Q (body x)) -> effects Q (for_each l body).
Proof.
  intros Hb. induction l as [|x l IH]; simpl.
  - apply effects_ret.
  - apply effects_bind; auto.
Qed.

Lemma effects_weaken {A} (Q Q' : request -> Prop) (m : M A) :
  (forall rq, Q rq -> Q' rq) -> effects Q m -> effects Q' m.
Proof.
  intros HQ Hm w. destruct (Hm w) as [[new [Hs Hq]] Hf]. split; auto.
  exists new. split; auto. eapply Forall_impl; eauto.
Qed.

Lemma effects_request (Q : request -> Prop) (c : ClashClient.t)
    (method : http_method) (path : string) (data : option json)
    (query : list (string * string)) :
  Q (ClashClient.build c method path data query) ->
  effects Q (ClashClient._request c method path data query).
Proof.
  intros HQ. unfold ClashClient._request.
  apply effects_bind; [now apply effects_urlopen|].
  intros [e| |j]; [apply effects_raise|apply effects_ret|apply effects_ret].
Qed.

Lemma effects_nodes_from_group (c : ClashClient.t) (group : string) :
  effects (fun rq => rq = proxy_request c group) (nodes_from_group c group).
Proof.
  unfold nodes_from_group, ClashClient.proxy.
  apply effects_bind; [now apply effects_request|].
  intros info. apply effects_bind; [apply effects_lift|].
  intros g. destruct (negb g); [apply effects_raise|apply effects_lift].
Qed.

Lemma effects_test_delays (c : ClashClient.t) (targets : list json)
    (url : string) (t : Z) :
  effects (fun rq => rq_method rq = GET /\ sent_by c rq)
          (test_delays c targets url t).
Proof.
  unfold test_delays. apply effects_for_each. intros name. unfold probe.
  apply effects_try; [|intros e; apply effects_eprint].
  apply effects_bind.
  - unfold ClashClient.delay. apply effects_bind; [apply effects_lift|].
    intros enc. apply effects_request. repeat split.
  - intros result. apply effects_bind; [apply effects_lift|].
    intros line. apply effects_print.
Qed.

Lemma effects_main_list (c : ClashClient.t) (groups nodes : bool) :
  effects (fun rq => rq_method rq = GET /\ sent_by c rq)
          (main_list c groups nodes).
Proof.
  - unfold main_list, list_proxies.
    apply effects_bind.
    { unfold ClashClient.proxies. apply effects_bind.
      - apply effects_request. repeat split.
      - intros r. apply effects_lift. }
    intros proxies. apply effects_bind.
    + destruct (groups || negb nodes); [|apply effects_ret].
      apply effects_bind; [apply effects_print|]. intros _.
      apply effects_bind; [apply effects_lift|]. intros entries.
      apply effects_for_each. intros [name info].
      apply effects_bind; [apply effects_lift|]. intros g.
      destruct g; [|apply effects_ret].
      apply effects_bind; [apply effects_lift|]. intros line.
      apply effects_print.
    + intros _. destruct (nodes || negb groups); [|apply effects_ret].
      apply effects_bind; [apply effects_print|]. intros _.
      apply effects_bind; [apply effects_lift|]. intros entries.
      apply effects_for_each. intros [name info].
      apply effects_bind; [apply effects_lift|]. intros g.
      destruct (negb g); [|apply effects_ret].
      apply effects_bind; [apply effects_lift|]. intros line.
      apply effects_print.
Qed.

Lemma effects_main_ping (c : ClashClient.t) (group : option string)
    (node : option (list string)) (url : string) (timeout : Z) :
  effects (fun rq => rq_method rq = GET /\ sent_by c rq)
          (main_ping c group node url timeout).
Proof.
  - unfold main_ping.
    apply effects_bind; [|intros nodes; apply effects_test_delays].
    destruct (nonempty group) as [g|].
    + apply effects_bind.
      { eapply effects_weaken; [|apply effects_nodes_from_group].
        intros rq ->. repeat split. }
      intros all. apply effects_bind; [apply effects_lift|]. intros nodes.
      apply effects_bind; [apply effects_print|]. intros _. apply effects_ret.
    + destruct node as [[|n l]|]; try apply effects_ret;
        (apply effects_bind; [apply effects_eprint|]; intros _;
         apply effects_exit).
Qed.

(** X4.  [list] and [ping] only read: every request they send is a GET
    made through the client, and they leave the config files alone. *)
Theorem list_and_ping_only_read (c : ClashClient.t) :
  (forall groups nodes,
      effects (fun rq => rq_method rq = GET /\ sent_by c rq)
              (main_list c groups nodes))
  /\ (forall group node url timeout,
         effects (fun rq => rq_method rq = GET /\ sent_by c rq)
                 (main_ping c group node url timeout)).
Proof.
  split; intros; [apply effects_main_list|apply effects_main_ping].
Qed.

Lemma effects_main_switch (c : ClashClient.t) (group node : string)
    (validate : bool) :
  effects (fun rq => sent_by c rq
                     /\ (rq = proxy_request c group
                         \/ rq = switch_request c group node))
          (main_switch c group node validate).
Proof.
  unfold main_switch. apply effects_bind.
  + destruct validate; [|apply effects_ret].
    apply effects_bind.
    { eapply effects_weaken; [|apply effects_nodes_from_group].
      intros rq ->. split; [repeat split|now left]. }
    intros all. apply effects_bind; [apply effects_lift|]. intros members.
    destruct (negb (member (JStr node) members)); [|apply effects_ret].
    apply effects_bind; [apply effects_lift|]. intros listing.
    apply effects_bind; [apply effects_print|]. intros _. apply effects_exit.
  + intros _. apply effects_bind; [|intros r; apply effects_print].
    unfold ClashClient.switch. apply effects_request.
    split; [repeat split|now right].
Qed.

(** X5.  Whatever [switch] sends goes through the client and is the
    GET of the group or the PUT whose body names the node; both are
    requested at the same path, which for a group other than [.] and
    [..] is [proxies/<encoded group>] below the base and for the group
    [..] is the directory of the base itself; the config files are left
    alone.  Without [--validate] no GET is sent, and exactly one PUT
    is. *)
Theorem switch_requests (c : ClashClient.t) (group node : string) :
  (forall validate,
      effects (fun rq => sent_by c rq
                         /\ (rq = proxy_request c group
                             \/ rq = switch_request c group node))
              (main_switch c group node validate))
  /\ (forall w,
         sent (snd (main_switch c group node false w))
         = (sent w ++ [switch_request c group node])%list)
  /\ rq_method (proxy_request c group) = GET
  /\ rq_method (switch_request c group node) = PUT
  /\ rq_data (switch_request c group node) = Some (JObj [("name", JStr node)])
  /\ rq_path (switch_request c group node) = rq_path (proxy_request c group)
  /\ (group <> "." -> group <> ".." ->
      rq_path (switch_request c group node) = "proxies/" ++ quote_str group)
  /\ rq_path (switch_request c ".." node) = "".
Proof.
  split; [|split; [|split; [|split; [|split; [|split; [|split]]]]]];
    try reflexivity.
  - intros validate. apply effects_main_switch.
  - intros w. unfold main_switch.
    change ((ret tt ;; ?k) w) with (k w).
    apply switch_and_print_sent.
  - intros H1 H2. apply String.eqb_neq in H1, H2.
    now rewrite request_path_switch, request_path_proxy, H1, H2.
Qed.

Lemma load_config_sent (path : string) (w : world) :
  sent (snd (load_config path w)) = sent w.
Proof. unfold load_config. now destruct (files w path). Qed.

(** [main] after the store is loaded. *)
Lemma main_dispatch (args : Args.t) (cmd : Args.subcommand) (w : world) :
  Args.command args = Some cmd ->
  let path := expanduser (Args.config args) in
  let stored := stored_doc (files w path) in
  main args w =
  match cmd with
  | Args.CmdConfig show => main_config args path stored show
  | Args.CmdList groups nodes =>
      client <- lift (ClashClient.init (effective_host args stored)
                                       (effective_secret args stored)) ;;
      main_list client groups nodes
  | Args.CmdPing group node url timeout =>
      client <- lift (ClashClient.init (effective_host args stored)
                                       (effective_secret args stored)) ;;
      main_ping client group node url timeout
  | Args.CmdSwitch group node validate =>
      client <- lift (ClashClient.init (effective_host args stored)
                                       (effective_secret args stored)) ;;
      main_switch client group node validate
  end (snd (load_config path w)).
Proof.
  intros Hcmd. cbv zeta. unfold main. rewrite Hcmd. unfold bind at 1.
  destruct (load_config_cases (expanduser (Args.config args)) w) as [Hr _].
  destruct (load_config _ w) as [r w0]. simpl in Hr. subst r.
  destruct cmd; reflexivity.
Qed.

Lemma main_config_sent (args : Args.t) (path : string) (stored : dict)
    (show : bool) (w : world) :
  sent (snd (main_config args path stored show w)) = sent w.
Proof.
  unfold main_config, save_config, write_file, bind, lift, get, ret, print.
  destruct (config_changed args); simpl.
  - destruct (write_error w path) as [[exc|exc remains]|]; simpl; auto.
    destruct show; reflexivity.
  - destruct show; reflexivity.
Qed.

(** X6.  A [config] invocation never contacts the daemon.  Any other
    invocation leaves the config files alone, and every request it sends
    has the time-out 10, goes to the base URL made from the effective
    host, and carries the [Authorization: Bearer] header exactly when
    the effective secret is truthy. *)
Theorem main_requests (args : Args.t) (w : world) :
  let stored := stored_doc (files w (expanduser (Args.config args))) in
  let host := effective_host args stored in
  let secret := effective_secret args stored in
  (forall show,
      Args.command args = Some (Args.CmdConfig show) ->
      sent (snd (main args w)) = sent w)
  /\ ((forall show, Args.command args <> Some (Args.CmdConfig show)) ->
      files (snd (main args w)) = files w
      /\ exists new,
          sent (snd (main args w)) = (sent w ++ new)%list
          /\ Forall (fun rq =>
                       rq_timeout rq = 10%Z
                       /\ rq_headers rq
                          = ("Content-Type", "application/json")
                              :: (if truthy secret
                                  then [("Authorization", "Bearer " ++ str secret)]
                                  else [])
                       /\ exists h,
                           host = JStr h
                           /\ rq_base rq
                              = rstrip_slash
                                  (if startswith "http://" h || startswith "https://" h
                                   then h else "http://" ++ h))
                    new).
Proof.
  cbv zeta. split.
  - intros show Hcmd. unfold main. rewrite Hcmd. unfold bind at 1.
    pose proof (load_config_sent (expanduser (Args.config args)) w) as Hs.
    destruct (load_config _ w) as [[stored|e|code] w0]; simpl in Hs; auto.
    rewrite <- Hs. apply main_config_sent.
  - intros Hcmd.
    destruct (Args.command args) as [cmd|] eqn:Ecmd.
    2:{ unfold main. rewrite Ecmd. simpl. split; auto.
        exists []. now rewrite app_nil_r. }
    rewrite (main_dispatch args cmd w Ecmd). cbv zeta.
    pose proof (load_config_sent (expanduser (Args.config args)) w) as Hs.
    destruct (load_config_cases (expanduser (Args.config args)) w)
      as [_ [Hf [He _]]].
    set (w0 := snd (load_config (expanduser (Args.config args)) w)) in *.
    set (stored := stored_doc (files w (expanduser (Args.config args)))).
    assert (Hrest :
      forall k : ClashClient.t -> M unit,
        (forall c, effects (sent_by c) (k c)) ->
        let final := snd ((client <- lift (ClashClient.init
                                             (effective_host args stored)
                                             (effective_secret args stored)) ;;
                           k client) w0) in
        files final = files w0
        /\ exists new,
            sent final = (sent w0 ++ new)%list
            /\ Forall (fun rq =>
                 exists c, ClashClient.init (effective_host args stored)
                                            (effective_secret args stored) = Val c
                           /\ sent_by c rq) new).
    { intros k Hk. cbv zeta. unfold bind at 1.
      destruct (ClashClient.init _ _) as [c|e] eqn:Ei; simpl.
      - destruct (Hk c w0) as [[new [Hn Hq]] [Hfk _]]. split; auto.
        exists new. split; auto. eapply Forall_impl; [|exact Hq].
        intros rq Hrq. eauto.
      - split; auto. exists []. now rewrite app_nil_r. }
    assert (Hgoal :
      forall final : world,
        (files final = files w0
         /\ exists new,
             sent final = (sent w0 ++ new)%list
             /\ Forall (fun rq =>
                  exists c, ClashClient.init (effective_host args stored)
                                             (effective_secret args stored) = Val c
                            /\ sent_by c rq) new) ->
        files final = files w
        /\ exists new,
            sent final = (sent w ++ new)%list
            /\ Forall (fun rq =>
                 rq_timeout rq = 10%Z
                 /\ rq_headers rq
                    = ("Content-Type", "application/json")
                        :: (if truthy (effective_secret args stored)
                            then [("Authorization",
                                   "Bearer " ++ str (effective_secret args stored))]
                            else [])
                 /\ exists h,
                     effective_host args stored = JStr h
                     /\ rq_base rq
                        = rstrip_slash
                            (if startswith "http://" h || startswith "https://" h
                             then h else "http://" ++ h)) new).
    { intros final [Hff [new [Hn Hq]]]. split; [congruence|].
      exists new. split; [congruence|]. eapply Forall_impl; [|exact Hq].
      intros rq [c [Hc [Hb [Hh Ht]]]]. unfold ClashClient.init in Hc.
      destruct (effective_host args stored) as [| | |h| |]; try discriminate.
      destruct (startswith "http://" h || startswith "https://" h) eqn:E;
        injection Hc as <-;
        (split; [exact Ht|split; [exact Hh|]]);
        exists h; (split; [reflexivity|]); rewrite E; exact Hb. }
    destruct cmd as [g n|g n u t|g n v|show].
    + apply Hgoal, (Hrest (fun c => main_list c g n)). intros c.
      eapply effects_weaken; [|apply effects_main_list]. now intros rq [_ H].
    + apply Hgoal, (Hrest (fun c => main_ping c g n u t)). intros c.
      eapply effects_weaken; [|apply effects_main_ping]. now intros rq [_ H].
    + apply Hgoal, (Hrest (fun c => main_switch c g n v)). intros c.
      eapply effects_weaken; [|apply effects_main_switch]. now intros rq [H _].
    + now destruct (Hcmd show).
Qed.

End Effects.

(** ** The [config] sub-command *)

Lemma dict_set_present (k : string) (v : json) (d : dict) :
  dict_get k d = Some v -> dict_set k v d = d.
Proof.
  induction d as [|[k' v'] d IH]; simpl; try discriminate.
  destruct (String.eqb k k') eqn:E.
  - now intros [= ->].
  - intros H. now rewrite (IH H).
Qed.

Lemma updated_config_idempotent (args : Args.t) (d : dict) :
  updated_config args (updated_config args d) = updated_config args d.
Proof.
  unfold updated_config.
  destruct (Args.host args) as [h|], (Args.secret args) as [s|]; auto.
  - rewrite (dict_set_present "host" (JStr h)).
    + apply dict_set_present, dict_get_set_same.
    + rewrite dict_get_set_other by discriminate. apply dict_get_set_same.
  - apply dict_set_present, dict_get_set_same.
  - apply dict_set_present, dict_get_set_same.
Qed.

Section Config.

Context {P : platform}.

(** The [config] branch, by whether something is set and whether the
    write goes through. *)
Lemma main_config_cases (args : Args.t) (path : string) (stored : dict)
    (show : bool) (w : world) :
  let updated := updated_config args stored in
  let written :=
    World (daemon w) (sent w)
          (fun p => if String.eqb p path then Doc updated else files w p)
          (write_error w) (stdout w ++ [saved_line path])%list (stderr w) in
  let showing (w' : world) :=
    World (daemon w') (sent w') (files w') (write_error w')
          (stdout w' ++ shown_lines updated)%list (stderr w') in
  main_config args path stored show w =
  if config_changed args then
    match write_error w path with
    | Some (BeforeOpen exc) => (Raise exc, w)
    | Some (DuringDump exc remains) =>
        (Raise exc,
         World (daemon w) (sent w)
               (fun p => if String.eqb p path then Unreadable remains
                         else files w p)
               (write_error w) (stdout w) (stderr w))
    | None => (Ok tt, if show then showing written else written)
    end
  else (Ok tt, showing w).
Proof.
  cbv zeta.
  unfold main_config, save_config, write_file, bind, lift, get, ret, print,
    shown_lines.
  destruct (config_changed args); simpl.
  - destruct (write_error w path) as [[exc|exc remains]|]; simpl; auto.
    destruct show; simpl; auto. now rewrite <- !app_assoc.
  - rewrite orb_true_r. simpl. now rewrite <- !app_assoc.
Qed.

(** X7.  [config] with no [--host] and no [--secret] only shows: it
    returns normally, leaves the config files as they are and prints the
    host and the secret of the stored document, each replaced by its
    default when the key is missing.  A missing file is an empty
    document without a word; an unreadable one is an empty document
    after one warning on the error stream. *)
Theorem config_query_only_shows (path : string) (show : bool) (w : world) :
  let state := files w (expanduser path) in
  let final := main (Args.Make None None path (Some (Args.CmdConfig show))) w in
  fst final = Ok tt
  /\ files (snd final) = files w
  /\ stdout (snd final) = (stdout w ++ shown_lines (stored_doc state))%list
  /\ stderr (snd final) = (stderr w ++ unreadable_warning state)%list.
Proof.
  cbv zeta.
  rewrite (main_dispatch (Args.Make None None path (Some (Args.CmdConfig show)))
                         (Args.CmdConfig show) w eq_refl). cbv zeta.
  rewrite main_config_cases. cbv zeta. simpl.
  unfold load_config. destruct (files w (expanduser path)); simpl;
    repeat split; auto; now rewrite app_nil_r.
Qed.

(** X8.  When the write of the store fails, a [config] invocation that
    sets something ends with the exception of the write, and neither
    the "saved" line nor the values are printed.  No other file is
    touched.  When the exception comes before the file is opened, the
    store is as it was; when it comes while the document is being
    written, the store has been truncated and is left unreadable. *)
Theorem config_write_failure (args : Args.t) (show : bool) (w : world)
    (failure : write_failure) :
  let path := expanduser (Args.config args) in
  Args.command args = Some (Args.CmdConfig show) ->
  config_changed args = true ->
  write_error w path = Some failure ->
  fst (main args w)
  = Raise (match failure with
           | BeforeOpen exc => exc
           | DuringDump exc _ => exc
           end)
  /\ stdout (snd (main args w)) = stdout w
  /\ (forall other, other <> path ->
                    files (snd (main args w)) other = files w other)
  /\ files (snd (main args w)) path
     = match failure with
       | BeforeOpen _ => files w path
       | DuringDump _ remains => Unreadable remains
       end.
Proof.
  cbv zeta. intros Hcmd Hch Hwr.
  rewrite (main_dispatch _ _ w Hcmd). cbv zeta.
  rewrite main_config_cases. cbv zeta. rewrite Hch.
  destruct (load_config_cases (expanduser (Args.config args)) w)
    as [_ [Hf [He Ho]]].
  rewrite He, Hwr. destruct failure as [exc|exc remains]; simpl.
  - rewrite Hf. auto.
  - rewrite Hf, String.eqb_refl. repeat split; auto.
    intros other Hne. apply String.eqb_neq in Hne. now rewrite Hne.
Qed.

(** X9.  A [config] invocation that sets something and can write prints
    the "saved" line with the expanded path, and after it, with
    [--show] only, the host and secret of the document it has just
    written. *)
Theorem config_set_output (args : Args.t) (show : bool) (w : world) :
  let path := expanduser (Args.config args) in
  Args.command args = Some (Args.CmdConfig show) ->
  config_changed args = true ->
  write_error w path = None ->
  fst (main args w) = Ok tt
  /\ stdout (snd (main args w))
     = (stdout w ++ saved_line path
          :: (if show
              then shown_lines (updated_config args (stored_doc (files w path)))
              else []))%list.
Proof.
  cbv zeta. intros Hcmd Hch Hwr.
  rewrite (main_dispatch _ _ w Hcmd). cbv zeta.
  rewrite main_config_cases. cbv zeta. rewrite Hch.
  destruct (load_config_cases (expanduser (Args.config args)) w)
    as [_ [Hf [He Ho]]].
  rewrite He, Hwr. destruct show; simpl; rewrite Ho; split; auto.
  now rewrite <- app_assoc.
Qed.

(** X10.  Setting the same values twice is the same as setting them
    once: the second run rewrites the store as the document the first
    run wrote. *)
Theorem config_set_idempotent (args : Args.t) (show : bool) (w : world) :
  let path := expanduser (Args.config args) in
  Args.command args = Some (Args.CmdConfig show) ->
  config_changed args = true ->
  write_error w path = None ->
  files (snd (main args (snd (main args w)))) path
  = files (snd (main args w)) path.
Proof.
  cbv zeta. intros Hcmd Hch Hwr.
  pose proof (main_config_writes args show w Hcmd Hch Hwr) as H1.
  cbv zeta in H1.
  assert (Hwr1 : write_error (snd (main args w)) (expanduser (Args.config args))
                 = None).
  { rewrite (main_dispatch _ _ w Hcmd). cbv zeta.
    rewrite main_config_cases. cbv zeta. rewrite Hch.
    destruct (load_config_cases (expanduser (Args.config args)) w)
      as [_ [_ [He _]]].
    rewrite He, Hwr. destruct show; simpl; now rewrite Hwr. }
  pose proof (main_config_writes args show _ Hcmd Hch Hwr1) as H2.
  cbv zeta in H2. rewrite H2, H1. simpl.
  now rewrite updated_config_idempotent.
Qed.

End Config.

(** ** The [ping] sub-command *)

Lemma probes_strs (c : ClashClient.t) (ms : list string) (url : string) (t : Z) :
  probes c (map JStr ms) url t = map (fun m => delay_request c m url t) ms.
Proof.
  unfold probes. induction ms as [|m ms IH]; simpl; auto. now rewrite IH.
Qed.

Section Ping.

Context {P : platform}.

(** A probe prints one line, on one of the two streams. *)
Lemma probe_lines (c : ClashClient.t) (url : string) (t : Z) (name : json)
    (w : world) :
  exists outs errs,
    stdout (snd (probe c url t name w)) = (stdout w ++ outs)%list
    /\ stderr (snd (probe c url t name w)) = (stderr w ++ errs)%list
    /\ length outs + length errs = 1.
Proof.
  assert (Herr : forall line w0,
             exists outs errs,
               stdout (snd (eprint line w0)) = (stdout w0 ++ outs)%list
               /\ stderr (snd (eprint line w0)) = (stderr w0 ++ errs)%list
               /\ length outs + length errs = 1).
  { intros line w0. exists [], [line]. simpl. now rewrite app_nil_r. }
  assert (Hout : forall line w0,
             exists outs errs,
               stdout (snd (print line w0)) = (stdout w0 ++ outs)%list
               /\ stderr (snd (print line w0)) = (stderr w0 ++ errs)%list
               /\ length outs + length errs = 1).
  { intros line w0. exists [line], []. simpl. now rewrite app_nil_r. }
  destruct name as [| | |n| |];
    try (rewrite probe_unsent by discriminate; apply Herr).
  rewrite probe_sent. cbv zeta.
  assert (Hw : stdout (snd (urlopen (delay_request c n url t) w)) = stdout w
               /\ stderr (snd (urlopen (delay_request c n url t) w)) = stderr w).
  { unfold urlopen. now destruct (serve (daemon w) _). }
  destruct Hw as [Hw1 Hw2]. rewrite <- Hw1, <- Hw2.
  destruct (fst (serve (daemon w) _)) as [e| |j]; auto.
  destruct (delay_text (JStr n) j); auto.
Qed.

Lemma test_delays_lines (c : ClashClient.t) (targets : list json)
    (url : string) (t : Z) (w : world) :
  exists outs errs,
    stdout (snd (test_delays c targets url t w)) = (stdout w ++ outs)%list
    /\ stderr (snd (test_delays c targets url t w)) = (stderr w ++ errs)%list
    /\ length outs + length errs = length targets.
Proof.
  unfold test_delays. revert w.
  induction targets as [|x xs IH]; intros w; simpl.
  - exists [], []. now rewrite !app_nil_r.
  - unfold bind.
    destruct (probe_lines c url t x w) as [o1 [e1 [Ho1 [He1 Hn1]]]].
    destruct (probe_returns c url t x w) as [Hr _].
    destruct (probe c url t x w) as [[[]|e|code] w1]; simpl in *;
      try discriminate.
    destruct (IH w1) as [o2 [e2 [Ho2 [He2 Hn2]]]].
    exists (o1 ++ o2)%list, (e1 ++ e2)%list.
    rewrite Ho2, He2, Ho1, He1, !app_assoc, !length_app. repeat split; lia.
Qed.

(** X11.  A batch of probes prints exactly one line per target, each on
    the output stream or on the error stream, and returns normally; a
    target that is not a string is among those reported on the error
    stream, without a request. *)
Theorem test_delays_one_line_per_target (c : ClashClient.t)
    (targets : list json) (url : string) (t : Z) (w : world) :
  let final := test_delays c targets url t w in
  fst final = Ok tt
  /\ (exists outs errs,
         stdout (snd final) = (stdout w ++ outs)%list
         /\ stderr (snd final) = (stderr w ++ errs)%list
         /\ length outs + length errs = length targets)
  /\ (forall name, (forall n, name <> JStr n) ->
        probe c url t name w
        = eprint (request_failed name
                    (Exn TypeError "quote_from_bytes() expected bytes")) w).
Proof.
  cbv zeta. split; [apply test_delays_returns|split].
  - apply test_delays_lines.
  - intros name Hn. now apply probe_unsent.
Qed.

(** X12.  [ping --group g] asks the daemon for the group, prints how
    many members it has, and probes the members in the daemon's order;
    the [--node] arguments play no part, and a group with no member
    list is a group of no members. *)
Theorem ping_group (c : ClashClient.t) (g : string) (node : option (list string))
    (url : string) (t : Z) (w : world) (info : dict) (ms : list string) :
  g <> "" ->
  fst (serve (daemon w) (proxy_request c g)) = JsonBody (JObj info) ->
  is_selector (JObj info) = Val true ->
  dict_get "all" info = Some (JArr (map JStr ms))
  \/ (dict_get "all" info = None /\ ms = []) ->
  let final := main_ping c (Some g) node url t w in
  fst final = Ok tt
  /\ sent (snd final)
     = (sent w ++ proxy_request c g
          :: map (fun m => delay_request c m url t) ms)%list
  /\ exists reports,
      stdout (snd final)
      = (stdout w ++ testing_line g (length ms) :: reports)%list.
Proof.
  intros Hg Hresp Hsel Hall. cbv zeta.
  assert (Hrun : main_ping c (Some g) node url t w
                 = test_delays c (map JStr ms) url t
                     (snd (print (testing_line g (length ms))
                                 (snd (urlopen (proxy_request c g) w))))).
  { unfold main_ping, nonempty.
    apply String.eqb_neq in Hg. rewrite Hg.
    unfold bind at 1. unfold bind at 1.
    rewrite (nodes_from_group_members c g w info Hresp Hsel).
    assert (Hl : (match dict_get "all" info with
                  | Some members => members
                  | None => JArr []
                  end) = JArr (map JStr ms)).
    { destruct Hall as [->|[-> ->]]; reflexivity. }
    rewrite Hl. unfold bind at 1. simpl lift. unfold ret at 1.
    unfold bind at 1. unfold print at 1. unfold ret at 1.
    rewrite length_map. reflexivity. }
  rewrite Hrun.
  match goal with
  | |- context [test_delays c _ url t ?w2] =>
      destruct (test_delays_returns c (map JStr ms) url t w2) as [Hr Hs];
      destruct (test_delays_lines c (map JStr ms) url t w2)
        as [outs [errs [Ho _]]]
  end.
  split; [exact Hr|split].
  - rewrite Hs, probes_strs. unfold urlopen.
    destruct (serve (daemon w) _). simpl. now rewrite <- app_assoc.
  - exists outs. rewrite Ho. unfold urlopen.
    destruct (serve (daemon w) _). simpl. now rewrite <- app_assoc.
Qed.

(** X13.  [ping] with no group (or an empty group name) and no node,
    run with a host that is a string, prints the request for targets on
    the error stream after the warning of an unreadable store, exits
    with status 1, and sends nothing. *)
Theorem ping_without_targets (args : Args.t) (group : option string)
    (node : option (list string)) (url : string) (t : Z) (w : world) (h : string) :
  let path := expanduser (Args.config args) in
  Args.command args = Some (Args.CmdPing group node url t) ->
  group = None \/ group = Some "" ->
  node = None \/ node = Some [] ->
  effective_host args (stored_doc (files w path)) = JStr h ->
  fst (main args w) = Exit 1
  /\ sent (snd (main args w)) = sent w
  /\ stdout (snd (main args w)) = stdout w
  /\ stderr (snd (main args w))
     = (stderr w ++ unreadable_warning (files w path) ++ [no_targets_line])%list.
Proof.
  cbv zeta. intros Hcmd Hgroup Hnode Hhost.
  rewrite (main_dispatch _ _ w Hcmd). cbv zeta. rewrite Hhost.
  unfold bind at 1.
  assert (Hinit : exists c, ClashClient.init (JStr h)
                              (effective_secret args
                                 (stored_doc (files w (expanduser (Args.config args)))))
                            = Val c).
  { unfold ClashClient.init. destruct (_ || _); eauto. }
  destruct Hinit as [c ->]. simpl lift. unfold ret at 1.
  assert (Hn : nonempty group = None) by (destruct Hgroup as [->| ->]; reflexivity).
  unfold main_ping. rewrite Hn.
  unfold load_config.
  destruct (files w (expanduser (Args.config args)));
    destruct Hnode as [-> | ->]; simpl; repeat split;
    now rewrite <- ?app_assoc, ?app_nil_r.
Qed.

(** X14.  When the stored host is not a string (a JSON null, say) and
    no [--host] is given, [list], [ping] and [switch] end with the
    [AttributeError] of [startswith]: the default host is not used in
    its place, and nothing is sent or printed. *)
Theorem stored_host_must_be_string (args : Args.t) (cmd : Args.subcommand)
    (w : world) :
  let path := expanduser (Args.config args) in
  let host := effective_host args (stored_doc (files w path)) in
  Args.command args = Some cmd ->
  (forall show, cmd <> Args.CmdConfig show) ->
  (forall s, host <> JStr s) ->
  fst (main args w) = Raise (no_attribute host "startswith")
  /\ sent (snd (main args w)) = sent w
  /\ stdout (snd (main args w)) = stdout w.
Proof.
  cbv zeta. intros Hcmd Hnc Hhost.
  rewrite (main_dispatch _ _ w Hcmd). cbv zeta.
  pose proof (load_config_sent (expanduser (Args.config args)) w) as Hs.
  destruct (load_config_cases (expanduser (Args.config args)) w)
    as [_ [_ [_ Ho]]].
  assert (Hinit : ClashClient.init
                    (effective_host args
                       (stored_doc (files w (expanduser (Args.config args)))))
                    (effective_secret args
                       (stored_doc (files w (expanduser (Args.config args)))))
                  = Err (no_attribute
                           (effective_host args
                              (stored_doc (files w (expanduser (Args.config args)))))
                           "startswith")).
  { destruct (effective_host args _) as [| | |s| |]; try reflexivity.
    now destruct (Hhost s). }
  destruct cmd as [g n|g n u t|g n v|show];
    try (unfold bind at 1; rewrite Hinit; simpl; auto).
  now destruct (Hnc show).
Qed.

End Ping.

(** ** The listing, block by block *)

Section Blocks.

Context {P : platform}.

Lemma block_run (wanted : bool -> bool) (text : string -> json -> res string)
    (entries : dict) (w : world) :
  for_each entries (fun '(name, info) =>
    g <- lift (is_selector info) ;;
    if wanted g then line <- lift (text name info) ;; print line
    else ret tt) w
  = (match snd (block wanted text entries) with
     | Some e => Raise e
     | None => Ok tt
     end,
     World (daemon w) (sent w) (files w) (write_error w)
           (stdout w ++ fst (block wanted text entries))%list (stderr w)).
Proof.
  revert w. induction entries as [|[name info] entries IH]; intros w.
  - destruct w. simpl. now rewrite app_nil_r.
  - cbn [for_each block]. unfold bind at 1. unfold bind at 1.
    destruct (is_selector info) as [g|e].
    + cbn [lift]. unfold ret at 1. destruct (wanted g).
      * unfold bind at 1. destruct (text name info) as [line|e].
        -- cbn [lift]. unfold ret at 1. unfold print at 1.
           rewrite IH. cbn. now rewrite <- app_assoc.
        -- destruct w. cbn. now rewrite app_nil_r.
      * unfold ret at 1. apply IH.
    + destruct w. cbn. now rewrite app_nil_r.
Qed.

(** X15.  Once the snapshot is fetched, the output of a listing is a
    function of the snapshot and the two flags: the groups block, its
    header first and one line per group in snapshot order, then the
    nodes block in the same way.  A block stops at the first entry that
    cannot be classified or rendered, with what was printed before it
    kept, and nothing of a later block is printed.  With neither
    [--groups] nor [--nodes] the command lists both blocks. *)
Theorem list_proxies_output (c : ClashClient.t) (show_groups show_nodes : bool)
    (w w0 : world) (snapshot : dict) :
  ClashClient.proxies c w = (Ok (JObj snapshot), w0) ->
  list_proxies c show_groups show_nodes w
  = (listing_outcome show_groups show_nodes snapshot,
     World (daemon w0) (sent w0) (files w0) (write_error w0)
           (stdout w0 ++ listing_lines show_groups show_nodes snapshot)%list
           (stderr w0))
  /\ stdout w0 = stdout w
  /\ main_list c false false w = list_proxies c true true w
  /\ main_list c true false w = list_proxies c true false w
  /\ main_list c false true w = list_proxies c false true w.
Proof.
  intros Hprox. split; [|split; [|repeat split]].
  2:{ pose proof (proxies_quiet c w) as H. now rewrite Hprox in H. }
  unfold list_proxies. unfold bind at 1. rewrite Hprox.
  unfold listing_outcome, listing_lines, groups_block, nodes_block.
  destruct show_groups, show_nodes.
  - unfold bind at 1. unfold bind at 1. unfold print at 1.
    unfold bind at 1. cbn [items lift]. unfold ret at 1.
    rewrite block_run.
    destruct (snd (block (fun g => g) group_text snapshot)) as [e|].
    + cbn. now rewrite app_nil_r, <- app_assoc.
    + unfold bind at 1. unfold print at 1. unfold bind at 1. unfold ret at 1.
      rewrite block_run. cbn. f_equal. f_equal.
      now rewrite <- !app_assoc.
  - unfold bind at 1. unfold bind at 1. unfold print at 1.
    unfold bind at 1. cbn [items lift]. unfold ret at 1.
    rewrite block_run.
    destruct (snd (block (fun g => g) group_text snapshot)) as [e|];
      cbn; now rewrite app_nil_r, <- app_assoc.
  - unfold bind at 1. unfold ret at 1.
    unfold bind at 1. unfold print at 1. unfold bind at 1.
    cbn [items lift]. unfold ret at 1.
    rewrite block_run. cbn. now rewrite <- !app_assoc.
  - destruct w0. cbn. now rewrite app_nil_r.
Qed.

(** X16.  [switch] without [--validate] sends the PUT at once.  When
    the request fails, the exception ends the command and nothing is
    printed; an empty answer counts as success and is echoed as the
    empty object; any other answer is echoed as indented JSON. *)
Theorem switch_without_validate (c : ClashClient.t) (group node : string)
    (w : world) :
  let rq := switch_request c group node in
  let w1 := snd (urlopen rq w) in
  main_switch c group node false w
  = match fst (serve (daemon w) rq) with
    | Failure e => (Raise e, w1)
    | EmptyBody => print "{}" w1
    | JsonBody j => print (dumps j) w1
    end
  /\ stdout w1 = stdout w
  /\ sent w1 = (sent w ++ [rq])%list.
Proof.
  cbv zeta. split.
  - unfold main_switch.
    change ((ret tt ;; ?k) w) with (k w).
    unfold bind at 1. rewrite switch_cases. cbv zeta.
    now destruct (fst (serve (daemon w) _)).
  - unfold urlopen. now destruct (serve (daemon w) _).
Qed.

(** X17.  A probe answer that is not an object, or whose delay is a
    string, a list or an object, is reported on the error stream like a
    failed request; a boolean delay is printed as [True ms] or
    [False ms]. *)
Theorem malformed_probe_answers (name : json) :
  (forall result, (forall d, result <> JObj d) ->
      delay_text name result = Err (no_attribute result "get"))
  /\ (forall (d : dict) (v : json),
         dict_get "delay" d = Some v ->
         hashable v = false \/ (exists s, v = JStr s) ->
         delay_text name (JObj d)
         = Err (Exn TypeError ("'<' not supported between instances of '"
                               ++ type_name v ++ "' and 'int'")))
  /\ (forall (d : dict) (b : bool),
         dict_get "delay" d = Some (JBool b) ->
         delay_text name (JObj d)
         = Val (str name ++ ": " ++ (if b then "True" else "False") ++ " ms"))
  /\ (forall (c : ClashClient.t) (url : string) (t : Z) (target : string)
             (w : world) (result : json) (e : exn),
         fst (serve (daemon w) (delay_request c target url t)) = JsonBody result ->
         delay_text (JStr target) result = Err e ->
         probe c url t (JStr target) w
         = eprint (request_failed (JStr target) e)
                  (snd (urlopen (delay_request c target url t) w))).
Proof.
  split; [|split; [|split]].
  - intros result Hr. destruct result; try reflexivity. now destruct (Hr fields).
  - intros d v Hv Hbad. unfold delay_text, get. simpl. rewrite Hv.
    destruct Hbad as [Hh|[s ->]].
    + destruct v; try discriminate; reflexivity.
    + reflexivity.
  - intros d b Hv. unfold delay_text, get. simpl. rewrite Hv.
    now destruct b.
  - intros c url t target w result e Hresp Htext.
    rewrite probe_sent. cbv zeta. now rewrite Hresp, Htext.
Qed.

End Blocks.

(** ** Fetching the snapshot *)

Section Fetch.

Context {P : platform}.

Lemma proxies_cases (c : ClashClient.t) (w : world) :
  let w1 := snd (urlopen (proxies_request c) w) in
  ClashClient.proxies c w =
  match fst (serve (daemon w) (proxies_request c)) with
  | Failure e => (Raise e, w1)
  | EmptyBody => (Ok (JObj []), w1)
  | JsonBody j => lift (get j "proxies" (JObj [])) w1
  end.
Proof.
  cbv zeta.
  unfold ClashClient.proxies, ClashClient._request, bind, urlopen,
    proxies_request; simpl.
  now destruct (serve (daemon w) _) as [[e| |j] s].
Qed.

(** X18.  When fetching the snapshot fails, [list] ends with that
    exception before anything is printed.  An empty answer, or an
    object without the key [proxies], is an empty snapshot: only the
    headers asked for are printed.  When [proxies] is not an object,
    the first header is printed and then [AttributeError] is raised. *)
Theorem list_proxies_fetch (c : ClashClient.t) (show_groups show_nodes : bool)
    (w : world) :
  let rq := proxies_request c in
  let w1 := snd (urlopen rq w) in
  let answer := fst (serve (daemon w) rq) in
  (forall e, answer = Failure e ->
      list_proxies c show_groups show_nodes w = (Raise e, w1))
  /\ (answer = EmptyBody
      \/ (exists d, answer = JsonBody (JObj d) /\ dict_get "proxies" d = None) ->
      fst (list_proxies c show_groups show_nodes w) = Ok tt
      /\ stdout (snd (list_proxies c show_groups show_nodes w))
         = (stdout w
            ++ (if show_groups then ["=== Policy Groups ==="] else [])
            ++ (if show_nodes then ["=== Endpoint Nodes ==="] else []))%list)
  /\ (forall d v,
         answer = JsonBody (JObj d) ->
         dict_get "proxies" d = Some v ->
         (forall snapshot, v <> JObj snapshot) ->
         show_groups || show_nodes = true ->
         list_proxies c show_groups show_nodes w
         = (Raise (no_attribute v "items"),
            snd (print (first_header show_groups) w1))).
Proof.
  cbv zeta.
  assert (Hout : stdout (snd (urlopen (proxies_request c) w)) = stdout w).
  { unfold urlopen. now destruct (serve (daemon w) _). }
  split; [|split].
  - intros e He. unfold list_proxies. unfold bind at 1.
    rewrite proxies_cases. cbv zeta. now rewrite He.
  - intros Hempty.
    assert (Hp : ClashClient.proxies c w
                 = (Ok (JObj []), snd (urlopen (proxies_request c) w))).
    { rewrite proxies_cases. cbv zeta.
      destruct Hempty as [->|[d [-> Hd]]]; auto.
      unfold get. now rewrite Hd. }
    assert (Hrun : list_proxies c show_groups show_nodes w
                   = ((if show_nodes then print "=== Endpoint Nodes ===" else ret tt)
                        (snd ((if show_groups then print "=== Policy Groups ==="
                               else ret tt)
                                (snd (urlopen (proxies_request c) w)))))).
    { unfold list_proxies. unfold bind at 1. rewrite Hp.
      destruct show_groups, show_nodes; reflexivity. }
    rewrite Hrun.
    destruct show_groups, show_nodes; simpl; rewrite Hout;
      rewrite <- ?app_assoc, ?app_nil_r; auto.
  - intros d v Ha Hv Hnot Hshow.
    assert (Hp : ClashClient.proxies c w
                 = (Ok v, snd (urlopen (proxies_request c) w))).
    { rewrite proxies_cases. cbv zeta. rewrite Ha. unfold get. now rewrite Hv. }
    unfold list_proxies. unfold bind at 1. rewrite Hp.
    assert (Hi : items v = Err (no_attribute v "items")).
    { destruct v; try reflexivity. now destruct (Hnot fields). }
    destruct show_groups, show_nodes; try discriminate;
      unfold bind, print, lift; rewrite Hi; reflexivity.
Qed.

End Fetch.

(** * Runs on the scripted daemon *)

Import Demo.

#[local] Existing Instance home.

(** [ping --node nodeA --node nodeB --node nodeC]: the probe of [nodeB]
    is refused, and the batch goes on to [nodeC] and returns. *)
Lemma test_delays_survives_probe_failure_witness :
  serve (daemon (snd (test_delays client [JStr "nodeA"] test_url 5000 fresh)))
        (delay_request client "nodeB" test_url 5000)
  = (Failure refused, tt)
  /\ In "nodeB: request failed (<urlopen error [Errno 111] Connection refused>)"
        (stderr (snd (test_delays client [JStr "nodeA"; JStr "nodeB"; JStr "nodeC"]
                                  test_url 5000 fresh)))
  /\ fst (test_delays client [JStr "nodeA"; JStr "nodeB"; JStr "nodeC"]
                      test_url 5000 fresh) = Ok tt
  /\ sent (snd (test_delays client [JStr "nodeA"; JStr "nodeB"; JStr "nodeC"]
                            test_url 5000 fresh))
     = [delay_request client "nodeA" test_url 5000;
        delay_request client "nodeB" test_url 5000;
        delay_request client "nodeC" test_url 5000].
Proof.
  split; [reflexivity|].
  exact (proj2 (test_delays_survives_probe_failure
                  client [JStr "nodeA"] [JStr "nodeC"] "nodeB"
                  test_url 5000 fresh refused tt eq_refl)).
Defined.

(** The four parts of the delay rule, at [-1], [42], [-1] again and
    the answer of the scripted daemon for [nodeA]. *)
Lemma delay_normalization_witness :
  delay_text (JStr "nodeC") (JObj [("delay", JNum (-1))])
  = Val "nodeC: timeout/no response"
  /\ delay_text (JStr "nodeA") (JObj [("delay", JNum 42)]) = Val "nodeA: 42 ms"
  /\ delay_text (JStr "nodeC") (JObj [("delay", JNum (-1))])
     <> Val "nodeC: -1 ms"
  /\ probe client test_url 5000 (JStr "nodeA") fresh
     = print "nodeA: 42 ms"
             (snd (urlopen (delay_request client "nodeA" test_url 5000) fresh)).
Proof.
  pose proof (delay_normalization (JStr "nodeC")) as [Hno [_ [Hneg _]]].
  pose proof (delay_normalization (JStr "nodeA")) as [_ [Hms [_ Hprobe]]].
  split; [|split; [|split]].
  - apply (Hno [("delay", JNum (-1))]). right. right. exists (-1)%Z.
    split; [reflexivity|lia].
  - apply (Hms [("delay", JNum 42)] 42%Z); [reflexivity|lia].
  - apply (Hneg (JObj [("delay", JNum (-1))]) (-1)%Z). lia.
  - apply (Hprobe client test_url 5000%Z "nodeA" fresh
                  (JObj [("delay", JNum 42)]) "nodeA: 42 ms"); reflexivity.
Defined.

(** [switch Proxy nodeX --validate] is rejected without a PUT, and
    [switch Proxy nodeA --validate] sends it. *)
Lemma switch_validate_witness :
  (fst (main_switch client "Proxy" "nodeX" true fresh) = Exit 1
   /\ sent (snd (main_switch client "Proxy" "nodeX" true fresh))
      = [proxy_request client "Proxy"]
   /\ stdout (snd (main_switch client "Proxy" "nodeX" true fresh))
      = ["节点 'nodeX' 不在策略组 'Proxy' 中。成员：nodeA, nodeB"])
  /\ sent (snd (main_switch client "Proxy" "nodeA" true fresh))
     = [proxy_request client "Proxy"; switch_request client "Proxy" "nodeA"].
Proof.
  split.
  - assert (Hnot : ~ In "nodeX" ["nodeB"; "nodeA"]).
    { simpl. intros [H|[H|[]]]; discriminate H. }
    destruct (proj1 (switch_validate client "Proxy" "nodeX" fresh)
                    group_fields ["nodeB"; "nodeA"] eq_refl eq_refl eq_refl Hnot)
      as [Hexit [Hsent [listed [_ [_ [Hset Hout]]]]]].
    split; [exact Hexit|split; [exact Hsent|]].
    destruct listed as [|a [|b [|x rest]]]; try discriminate Hset.
    injection Hset as <- <-. exact Hout.
  - assert (Hin : In "nodeA" ["nodeB"; "nodeA"]) by (simpl; auto).
    exact (proj1 (proj2 (switch_validate client "Proxy" "nodeA" fresh))
                 group_fields ["nodeB"; "nodeA"] eq_refl eq_refl eq_refl Hin).
Defined.

(** [list] on the scripted daemon prints one group and two nodes. *)
Lemma groups_and_nodes_partition_witness :
  exists group_lines node_lines,
    length group_lines = 1 /\ length node_lines = 2
    /\ stdout (snd (list_proxies client true true fresh))
       = ("=== Policy Groups ===" :: group_lines
          ++ "=== Endpoint Nodes ===" :: node_lines)%list.
Proof.
  destruct (proj2 (proj2 groups_and_nodes_partition) client fresh
                  (snd (list_proxies client true true fresh)) eq_refl)
    as [snap [gl [nl [Hsnap [Hg [Hn Hout]]]]]].
  injection Hsnap as <-.
  exists gl, nl. split; [|split].
  - apply Forall2_length in Hg. now rewrite <- Hg.
  - apply Forall2_length in Hn. now rewrite <- Hn.
  - exact Hout.
Defined.



(** [config --host 10.0.0.2:9090 --secret s3cret], then [config --show]. *)
Lemma config_round_trip_witness :
  stdout (snd (main (config_show "cfg")
                    (snd (main (config_set "cfg" "10.0.0.2:9090" "s3cret" false)
                               fresh))))
  = ["已保存配置到 cfg"; "host: 10.0.0.2:9090"; "secret: s3cret"].
Proof.
  exact (proj2 (proj2 (config_round_trip "cfg" "10.0.0.2:9090" "s3cret" false
                                         fresh eq_refl))).
Defined.

(** C8 as the spec words it fails at the empty secret: [config --show]
    prints "(empty)", which is not the secret that was stored. *)
Lemma config_round_trip_empty_secret :
  ~ (forall (P : platform) (path H S : string) (w : world),
        write_error w (expanduser path) = None ->
        let w1 := snd (main (config_set path H S false) w) in
        stdout (snd (main (config_show path) w1))
        = (stdout w1 ++ [("host: " ++ H)%string; ("secret: " ++ S)%string])%list).
Proof.
  intros Hclaim.
  specialize (Hclaim home "cfg" "10.0.0.2:9090" "" fresh eq_refl).
  discriminate Hclaim.
Qed.

(** A store with a secret and a key the program does not know; setting
    the host keeps both. *)
Lemma config_keeps_other_keys_witness :
  files (snd (main (Args.Make (Some "10.0.0.2:9090") None "cfg"
                              (Some (Args.CmdConfig false))) stocked)) "cfg"
  = Doc [("secret", JStr "s3cret"); ("theme", JStr "dark");
         ("host", JStr "10.0.0.2:9090")].
Proof.
  exact (proj1 (proj1 (config_keeps_other_keys "cfg" "10.0.0.2:9090" false
                                               stocked eq_refl))).
Defined.

(** C9 on the scripted daemon, whose group [Proxy] has the members
    [nodeB], [nodeA] in that order, in an interpreter that walks this
    set the other way round.  The listing prints the members in the
    daemon's order; the rejection of [switch Proxy nodeX --validate]
    prints them in the order of the set. *)
Theorem switch_rejection_loses_member_order :
  dict_get "all" group_fields = Some (JArr [JStr "nodeB"; JStr "nodeA"])
  /\ stdout (snd (main_list client true false fresh))
     = ["=== Policy Groups ===";
        "Proxy [Selector]: now=nodeB; members=nodeB, nodeA"]
  /\ main_switch client "Proxy" "nodeX" true fresh
     = (Exit 1,
        World tt [proxy_request client "Proxy"] (files fresh) (write_error fresh)
              ["节点 'nodeX' 不在策略组 'Proxy' 中。成员：nodeA, nodeB"] []).
Proof.
  repeat split.
Qed.

(** ** Runs for the further properties *)

Lemma init_base_witness :
  exists c, ClashClient.init (JStr "https://router.lan:9090//") JNull = Val c
            /\ ClashClient.base c = "https://router.lan:9090".
Proof.
  destruct (proj1 (init_base "https://router.lan:9090//" JNull))
    as [c [Hc [_ [_ [_ [Hscheme _]]]]]].
  exists c. split; [exact Hc|]. exact (Hscheme eq_refl).
Defined.

(** A node whose name has a slash and a space. *)
Lemma request_paths_witness :
  rq_path (proxy_request client "HK 01/a") = "proxies/HK%2001%2Fa"
  /\ rq_path (delay_request client "HK 01/a" test_url 5000)
     = "proxies/HK%2001%2Fa/delay"
  /\ quote_str "node-1.hk_A~" = "node-1.hk_A~".
Proof.
  destruct (request_paths client "HK 01/a" "x" test_url 5000)
    as [Hpaths _].
  destruct (Hpaths ltac:(discriminate) ltac:(discriminate))
    as [Hget [_ Hdelay]].
  split; [exact Hget|split; [exact (Hdelay ltac:(discriminate))|]].
  exact (proj1 (proj2 (proj2 (proj2 (request_paths client "node-1.hk_A~" "x"
                                                  test_url 5000))))
               eq_refl).
Defined.

(** [a/b] and its own encoding are different names and go to different
    paths. *)
Lemma request_paths_distinct_witness :
  rq_path (proxy_request client "a/b") <> rq_path (proxy_request client "a%2Fb").
Proof.
  exact (proj1 (proj1 (request_paths_distinct client "a/b" "a%2Fb" "x" test_url 5000)
                      ltac:(discriminate) ltac:(discriminate) ltac:(discriminate)
                      ltac:(discriminate) ltac:(discriminate))).
Defined.

(** [switch Proxy nodeA]: the PUT goes to [proxies/Proxy]. *)
Lemma switch_requests_witness :
  rq_path (switch_request client "Proxy" "nodeA") = "proxies/Proxy".
Proof.
  exact (proj1 (proj2 (proj2 (proj2 (proj2 (proj2
           (proj2 (switch_requests client "Proxy" "nodeA")))))))
               ltac:(discriminate) ltac:(discriminate)).
Defined.

(** The secret cannot be saved on a read-only disk. *)
Lemma config_write_failure_witness :
  (fst (main (Args.Make None (Some "s3cret") "cfg" (Some (Args.CmdConfig true)))
             read_only)
   = Raise (Exn OSError "[Errno 30] Read-only file system: 'cfg'")
   /\ files (snd (main (Args.Make None (Some "s3cret") "cfg"
                                  (Some (Args.CmdConfig true))) read_only)) "cfg"
      = Absent)
  /\ (fst (main (Args.Make (Some "10.0.0.2:9090") None "cfg"
                           (Some (Args.CmdConfig false))) disk_full)
      = Raise (Exn OSError "[Errno 28] No space left on device")
      /\ files (snd (main (Args.Make (Some "10.0.0.2:9090") None "cfg"
                                     (Some (Args.CmdConfig false))) disk_full)) "cfg"
         = Unreadable (Exn JSONDecodeError
                           "Expecting value: line 1 column 1 (char 0)")).
Proof.
  split.
  - destruct (config_write_failure
                (Args.Make None (Some "s3cret") "cfg" (Some (Args.CmdConfig true)))
                true read_only
                (BeforeOpen (Exn OSError "[Errno 30] Read-only file system: 'cfg'"))
                eq_refl eq_refl eq_refl) as [Hr [_ [_ Hf]]].
    split; [exact Hr|exact Hf].
  - destruct (config_write_failure
                (Args.Make (Some "10.0.0.2:9090") None "cfg"
                           (Some (Args.CmdConfig false)))
                false disk_full
                (DuringDump (Exn OSError "[Errno 28] No space left on device")
                            (Exn JSONDecodeError
                                 "Expecting value: line 1 column 1 (char 0)"))
                eq_refl eq_refl eq_refl) as [Hr [_ [_ Hf]]].
    split; [exact Hr|exact Hf].
Defined.

Lemma config_set_output_witness :
  stdout (snd (main (Args.Make (Some "10.0.0.2:9090") None "cfg"
                               (Some (Args.CmdConfig true))) stocked))
  = ["已保存配置到 cfg"; "host: 10.0.0.2:9090"; "secret: s3cret"].
Proof.
  exact (proj2 (config_set_output
                  (Args.Make (Some "10.0.0.2:9090") None "cfg"
                             (Some (Args.CmdConfig true)))
                  true stocked eq_refl eq_refl eq_refl)).
Defined.

Lemma config_set_idempotent_witness :
  files (snd (main (config_set "cfg" "10.0.0.2:9090" "s3cret" false)
                   (snd (main (config_set "cfg" "10.0.0.2:9090" "s3cret" false)
                              stocked)))) "cfg"
  = files (snd (main (config_set "cfg" "10.0.0.2:9090" "s3cret" false) stocked))
          "cfg".
Proof.
  exact (config_set_idempotent (config_set "cfg" "10.0.0.2:9090" "s3cret" false)
                               false stocked eq_refl eq_refl eq_refl).
Defined.

(** [ping --group Proxy --node nodeC]: the two members are probed, in
    the daemon's order, and [nodeC] is not. *)
Lemma ping_group_witness :
  sent (snd (main_ping client (Some "Proxy") (Some ["nodeC"]) test_url 5000 fresh))
  = [proxy_request client "Proxy";
     delay_request client "nodeB" test_url 5000;
     delay_request client "nodeA" test_url 5000].
Proof.
  exact (proj1 (proj2 (ping_group client "Proxy" (Some ["nodeC"]) test_url 5000
                                  fresh group_fields ["nodeB"; "nodeA"]
                                  ltac:(discriminate) eq_refl eq_refl
                                  (or_introl eq_refl)))).
Defined.

Lemma ping_without_targets_witness :
  fst (main (Args.Make None None "cfg"
                       (Some (Args.CmdPing (Some "") None test_url 5000))) fresh)
  = Exit 1.
Proof.
  exact (proj1 (ping_without_targets
                  (Args.Make None None "cfg"
                             (Some (Args.CmdPing (Some "") None test_url 5000)))
                  (Some "") None test_url 5000 fresh "127.0.0.1:9090"
                  eq_refl (or_intror eq_refl) (or_introl eq_refl) eq_refl)).
Defined.

Lemma stored_host_must_be_string_witness :
  fst (main (Args.Make None None "cfg" (Some (Args.CmdList false false))) null_host)
  = Raise (Exn AttributeError "'NoneType' object has no attribute 'startswith'").
Proof.
  exact (proj1 (stored_host_must_be_string
                  (Args.Make None None "cfg" (Some (Args.CmdList false false)))
                  (Args.CmdList false false) null_host eq_refl
                  ltac:(discriminate) ltac:(discriminate))).
Defined.

(** [list --nodes] on the scripted daemon. *)
Lemma list_proxies_output_witness :
  stdout (snd (list_proxies client false true fresh))
  = ["=== Endpoint Nodes ==="; "nodeA [Shadowsocks], udp=True";
     "nodeB [Shadowsocks], udp=True"].
Proof.
  exact (f_equal (fun r => stdout (snd r))
           (proj1 (list_proxies_output client false true fresh
                     (snd (ClashClient.proxies client fresh)) snapshot eq_refl))).
Defined.

(** A delay sent as text, and a probe whose answer is a list. *)
Lemma malformed_probe_answers_witness :
  delay_text (JStr "nodeA") (JObj [("delay", JStr "42")])
  = Err (Exn TypeError "'<' not supported between instances of 'str' and 'int'")
  /\ delay_text (JStr "nodeA") (JArr []) = Err (no_attribute (JArr []) "get")
  /\ delay_text (JStr "nodeA") (JObj [("delay", JBool true)]) = Val "nodeA: True ms"
  /\ @probe odd client test_url 5000 (JStr "nodeA") (@start odd tt)
     = @eprint odd "nodeA: request failed ('list' object has no attribute 'get')"
               (snd (@urlopen odd (delay_request client "nodeA" test_url 5000)
                              (@start odd tt))).
Proof.
  pose proof (malformed_probe_answers (P := odd) (JStr "nodeA"))
    as [Hobj [Hcmp [Hbool Hprobe]]].
  split; [|split; [|split]].
  - apply (Hcmp [("delay", JStr "42")] (JStr "42") eq_refl).
    right. now exists "42".
  - apply Hobj. discriminate.
  - apply (Hbool [("delay", JBool true)] true eq_refl).
  - apply (Hprobe client test_url 5000%Z "nodeA" (@start odd tt) (JArr [])
                  (no_attribute (JArr []) "get")); reflexivity.
Defined.

(** [list --groups] against a daemon that answers with an empty body,
    and [list] against one whose [proxies] is a list. *)
Lemma list_proxies_fetch_witness :
  stdout (snd (@list_proxies silent client true false (@start silent tt)))
  = ["=== Policy Groups ==="]
  /\ fst (@list_proxies listy client true true (@start listy tt))
     = Raise (Exn AttributeError "'list' object has no attribute 'items'")
  /\ fst (@list_proxies odd client true true (@start odd tt)) = Raise not_found.
Proof.
  split; [|split].
  - exact (proj2 (proj1 (proj2 (@list_proxies_fetch silent client true false
                                                     (@start silent tt)))
                        (or_introl eq_refl))).
  - exact (f_equal fst
             (proj2 (proj2 (@list_proxies_fetch listy client true true
                                                (@start listy tt)))
                    [("proxies", JArr [])] (JArr []) eq_refl eq_refl
                    ltac:(discriminate) eq_refl)).
  - exact (f_equal fst
             (proj1 (@list_proxies_fetch odd client true true (@start odd tt))
                    not_found eq_refl)).
Defined.

(** [switch Proxy nodeA] with a stored secret: the GET and the PUT both
    carry the bearer header and the time-out 10. *)
Lemma main_requests_witness :
  sent (snd (main (config_show "cfg") stocked)) = []
  /\ exists new,
      sent (snd (main (Args.Make None None "cfg"
                                 (Some (Args.CmdSwitch "Proxy" "nodeA" true)))
                      stocked)) = new
      /\ Forall (fun rq => rq_timeout rq = 10%Z
                           /\ In ("Authorization", "Bearer s3cret") (rq_headers rq))
                new.
Proof.
  split.
  - exact (proj1 (main_requests (config_show "cfg") stocked) true eq_refl).
  - destruct (proj2 (main_requests
                       (Args.Make None None "cfg"
                                  (Some (Args.CmdSwitch "Proxy" "nodeA" true)))
                       stocked) ltac:(discriminate))
      as [_ [new [Hsent Hall]]].
    exists new. split; [exact Hsent|].
    eapply Forall_impl; [|exact Hall].
    intros rq [Ht [Hh _]]. split; [exact Ht|]. rewrite Hh. simpl. auto.
Defined.

(** A group whose member list holds a number: the number is reported
    on the error stream and no request is made for it. *)
Lemma test_delays_one_line_per_target_witness :
  probe client test_url 5000 (JNum 7) fresh
  = eprint "7: request failed (quote_from_bytes() expected bytes)" fresh.
Proof.
  exact (proj2 (proj2 (test_delays_one_line_per_target
                         client [JNum 7] test_url 5000 fresh))
               (JNum 7) ltac:(discriminate)).
Defined.
